(** * db_viewer 0.3: a shallow embedding of the SQLite viewer's logic

    The program is a PyQt6 window over one SQLite connection.  Its own
    logic is the sequence of statements each handler sends to the engine,
    the commands it pushes on the undo stack, the query history it keeps
    and the CSV text it writes.  The embedding follows
    [src/db_viewer_0.3.py] handler by handler; dialogs are inputs of the
    handlers, message boxes and the status bar are part of the state.  A
    handler whose Python code raises, or whose run leaves what is
    modelled here, yields [None].

    The collaborators outside the repository are modelled by the
    behaviour they have for the calls the program makes:

    - the relational engine (SQLite behind [QSqlQuery]).  A database is
      the list of its tables in the order of [sqlite_master] (creation
      order; a renamed table keeps its place); views, triggers,
      temporary tables and attached databases are not part of it, and
      the properties below are about connections that have none.  A
      table is an ordered list of (column name, declared type) pairs,
      its constraints, options and indexes as text, and its rows in the
      order of their row ids.  Names are compared without regard to
      the case of the letters a-z, as the engine does.  The program
      splices names into the text of its statements: the statement is
      kept as a syntax tree next to that text ([sql_text]), and the
      engine below answers for the tree only when every spliced name is
      a plain identifier ([plain_name]: letters, digits and
      underscores, no keyword, no reserved prefix), which is when the
      text parses back to the tree; any other statement counts as
      rejected here, whereas the engine rejects most keywords, takes
      some as names, and may read another text as a different
      statement: the properties below assume plain names.  Constraints
      are not enforced, the names of indexes are not looked at, values
      are copied without conversion between storage classes, a scan
      goes by row id and never through an index, and the counter rows
      of [sqlite_sequence] are not kept: this is the behaviour of
      tables declared by column names and types alone ([plain_table])
      in a database of such tables ([plain_database]), which the
      properties about tables assume.  Locks held by unfinished queries
      are not modelled.  [QSqlQuery.exec] never raises: it returns
      [False] and leaves the database as it was.
    - [QSqlTableModel]: a grid of headers and rows, all rows fetched;
      [data] answers for the display and edit roles only, and Python
      receives the empty string for NULL; [setData] returns at once for
      a value the cell already holds and otherwise caches the field,
      signals [dataChanged] for the cell, writes the row to the table
      (edit strategy [OnFieldChange]), reads it back and signals
      [dataChanged] for the whole row.
    - [QUndoStack]: a command list and an index, with [push], [undo],
      [redo] and [clear]; no merging, macros or undo limit (the program
      uses none).  The window connects only [undo] to an action.
    - Python's [str] methods, [strftime] and [csv.writer] with the
      default dialect. *)

From stdpp Require Import gmap strings list fin_maps pretty.
From Stdlib Require Import ZArith Ascii.

Local Open Scope string_scope.
Local Open Scope list_scope.

(** ** Python string operations

    A [string] stands for a Python [str]; its characters are code points
    below 256. *)

(** [str.isspace] on one character. *)
Definition is_space (c : ascii) : bool :=
  let n := nat_of_ascii c in
  (((9 <=? n) && (n <=? 13)) || ((28 <=? n) && (n <=? 32))
   || (n =? 133) || (n =? 160))%nat.

Fixpoint lstrip (drop : ascii → bool) (s : string) : string :=
  match s with
  | EmptyString => EmptyString
  | String c rest => if drop c then lstrip drop rest else s
  end.

(** [s.rstrip(chars)]: every trailing character of the set goes. *)
Fixpoint rstrip (drop : ascii → bool) (s : string) : string :=
  match s with
  | EmptyString => EmptyString
  | String c rest =>
      match rstrip drop rest with
      | EmptyString => if drop c then EmptyString else String c EmptyString
      | kept => String c kept
      end
  end.

(** [s.strip()]. *)
Definition strip (s : string) : string := lstrip is_space (rstrip is_space s).

(** [s[:n]]. *)
Fixpoint slice_to (n : nat) (s : string) : string :=
  match n, s with
  | S k, String c rest => String c (slice_to k rest)
  | _, _ => EmptyString
  end.

(** The rest of [s] after a leading [sep], if [s] starts with it. *)
Fixpoint strip_prefix (sep s : string) : option string :=
  match sep, s with
  | EmptyString, _ => Some s
  | String a sep', String b s' =>
      if Ascii.eqb a b then strip_prefix sep' s' else None
  | String _ _, EmptyString => None
  end.

(** [s.split(sep, 1)]: the text before and after the first [sep], or
    [None] when [sep] does not occur (the list then has one element). *)
Fixpoint split_once (sep s : string) : option (string * string) :=
  match strip_prefix sep s with
  | Some after => Some (EmptyString, after)
  | None =>
      match s with
      | EmptyString => None
      | String c rest =>
          match split_once sep rest with
          | Some (before, after) => Some (String c before, after)
          | None => None
          end
      end
  end.

(** [s.startswith(p)]. *)
Definition startswith (p s : string) : bool :=
  match strip_prefix p s with
  | Some _ => true
  | None => false
  end.

(** [s.upper()] on the letters a-z (enough to decide
    [startswith('SELECT')], since no other character of this range
    upper-cases into that word).  It is also the case folding of the
    engine, which folds these letters only. *)
Definition upper_char (c : ascii) : ascii :=
  let n := nat_of_ascii c in
  if ((97 <=? n) && (n <=? 122))%nat then ascii_of_nat (n - 32) else c.

Fixpoint upper (s : string) : string :=
  match s with
  | EmptyString => EmptyString
  | String c rest => String (upper_char c) (upper rest)
  end.

(** Python's [", ".join]. *)
Fixpoint join (sep : string) (parts : list string) : string :=
  match parts with
  | [] => EmptyString
  | [p] => p
  | p :: rest => p +:+ sep +:+ join sep rest
  end.

(** ** Names as the engine reads them *)

(** Two names denote the same table or column. *)
Definition same_name (a b : string) : bool := String.eqb (upper a) (upper b).

Definition is_letter (c : ascii) : bool :=
  let n := nat_of_ascii c in
  (((65 <=? n) && (n <=? 90)) || ((97 <=? n) && (n <=? 122)))%nat.

Definition is_word_char (c : ascii) : bool :=
  let n := nat_of_ascii c in
  (is_letter c || ((48 <=? n) && (n <=? 57)) || (n =? 95))%nat.

Fixpoint all_chars (p : ascii → bool) (s : string) : bool :=
  match s with
  | EmptyString => true
  | String c rest => p c && all_chars p rest
  end.

(** A letter or an underscore, then letters, digits and underscores. *)
Definition identifier (s : string) : bool :=
  match s with
  | EmptyString => false
  | String c rest =>
      (is_letter c || (nat_of_ascii c =? 95)%nat) && all_chars is_word_char rest
  end.

(** The engine's keywords. *)
Definition keywords : list string :=
  ["ABORT"; "ACTION"; "ADD"; "AFTER"; "ALL"; "ALTER"; "ALWAYS"; "ANALYZE";
   "AND"; "AS"; "ASC"; "ATTACH"; "AUTOINCREMENT"; "BEFORE"; "BEGIN";
   "BETWEEN"; "BY"; "CASCADE"; "CASE"; "CAST"; "CHECK"; "COLLATE";
   "COLUMN"; "COMMIT"; "CONFLICT"; "CONSTRAINT"; "CREATE"; "CROSS";
   "CURRENT"; "CURRENT_DATE"; "CURRENT_TIME"; "CURRENT_TIMESTAMP";
   "DATABASE"; "DEFAULT"; "DEFERRABLE"; "DEFERRED"; "DELETE"; "DESC";
   "DETACH"; "DISTINCT"; "DO"; "DROP"; "EACH"; "ELSE"; "END"; "ESCAPE";
   "EXCEPT"; "EXCLUDE"; "EXCLUSIVE"; "EXISTS"; "EXPLAIN"; "FAIL"; "FILTER";
   "FIRST"; "FOLLOWING"; "FOR"; "FOREIGN"; "FROM"; "FULL"; "GENERATED";
   "GLOB"; "GROUP"; "GROUPS"; "HAVING"; "IF"; "IGNORE"; "IMMEDIATE"; "IN";
   "INDEX"; "INDEXED"; "INITIALLY"; "INNER"; "INSERT"; "INSTEAD";
   "INTERSECT"; "INTO"; "IS"; "ISNULL"; "JOIN"; "KEY"; "LAST"; "LEFT";
   "LIKE"; "LIMIT"; "MATCH"; "MATERIALIZED"; "NATURAL"; "NO"; "NOT";
   "NOTHING"; "NOTNULL"; "NULL"; "NULLS"; "OF"; "OFFSET"; "ON"; "OR";
   "ORDER"; "OTHERS"; "OUTER"; "OVER"; "PARTITION"; "PLAN"; "PRAGMA";
   "PRECEDING"; "PRIMARY"; "QUERY"; "RAISE"; "RANGE"; "RECURSIVE";
   "REFERENCES"; "REGEXP"; "REINDEX"; "RELEASE"; "RENAME"; "REPLACE";
   "RESTRICT"; "RETURNING"; "RIGHT"; "ROLLBACK"; "ROW"; "ROWS";
   "SAVEPOINT"; "SELECT"; "SET"; "TABLE"; "TEMP"; "TEMPORARY"; "THEN";
   "TIES"; "TO"; "TRANSACTION"; "TRIGGER"; "UNBOUNDED"; "UNION"; "UNIQUE";
   "UPDATE"; "USING"; "VACUUM"; "VALUES"; "VIEW"; "VIRTUAL"; "WHEN";
   "WHERE"; "WINDOW"; "WITH"; "WITHOUT"; "WITHIN"].

(** A name the engine reads back as the identifier it was spliced as: an
    identifier that is no keyword and does not start with the prefix
    the engine keeps for its own tables (the name [sqlite] is left out
    with them, since the temporary name made from it has the prefix). *)
Definition plain_name (s : string) : bool :=
  identifier s && negb (bool_decide (upper s ∈ keywords))
  && negb (startswith "SQLITE" (upper s)).

(** A declared type that reads back as it was spliced: none, or one
    plain word. *)
Definition plain_type (ty : string) : bool :=
  bool_decide (ty = EmptyString) || plain_name ty.

Definition plain_column (col : string * string) : bool :=
  plain_name col.1 && plain_type col.2.

(** The most columns a table can have. *)
Definition max_columns : nat := 2000.

(** ** Values, tables and the database *)

Inductive Value : Type :=
  | VNull
  | VInt (n : Z)
  | VText (s : string).

#[global] Instance Value_eq_dec : EqDecision Value.
Proof. solve_decision. Defined.

(** One relation: the columns as [PRAGMA table_info] lists them
    (name, declared type); whatever else the schema says about the
    table, as text: the column and table constraints and the table
    options of its [CREATE TABLE] and the indexes made on it (none of
    it enforced or used here); and the rows in the order of their row
    ids. *)
Record Table : Type := mkTable {
  columns : list (string * string);
  constraints : list string;
  rows : list (list Value)
}.

(** The tables in [sqlite_master] order, under the names they were
    created or renamed with. *)
Abbreviation Database := (list (string * Table)).

Definition column_names (tb : Table) : list string := (columns tb).*1.

(** The table a name denotes. *)
Fixpoint lookup_table (t : string) (d : Database) : option Table :=
  match d with
  | [] => None
  | (n, tb) :: rest => if same_name n t then Some tb else lookup_table t rest
  end.

(** The database without the table a name denotes. *)
Definition drop_table (t : string) (d : Database) : Database :=
  filter (λ e, same_name e.1 t = false) d.

(** The database with the table a name denotes changed by [f], in its
    place. *)
Definition alter_table (f : Table → Table) (t : string) (d : Database) : Database :=
  (λ e, if same_name e.1 t then (e.1, f e.2) else e) <$> d.

(** The database with the table a name denotes put under the name [n],
    in its place. *)
Definition rename_table (t n : string) (d : Database) : Database :=
  (λ e, if same_name e.1 t then (n, e.2) else e) <$> d.

(** Whether some name of the list denotes the same as [c]. *)
Definition has_name (c : string) (names : list string) : bool :=
  existsb (same_name c) names.

(** Position of the first column called [c]. *)
Fixpoint index_of (c : string) (names : list string) : option nat :=
  match names with
  | [] => None
  | n :: rest => if same_name n c then Some 0 else S <$> index_of c rest
  end.

(** The value a row holds under column [c] (NULL when absent). *)
Definition cell (names : list string) (row : list Value) (c : string) : Value :=
  match index_of c names with
  | Some i => default VNull (row !! i)
  | None => VNull
  end.

(** The values of one column, top to bottom. *)
Definition column_values (db : Database) (t c : string) : option (list Value) :=
  tb ← lookup_table t db;
  if has_name c (column_names tb)
  then Some ((λ r, cell (column_names tb) r c) <$> rows tb)
  else None.

(** ** The statements the program sends *)

Inductive Statement : Type :=
  | CreateTable (table : string) (columns_def : list (string * string))
  | CreateTableWithKey (table : string)
  | InsertIntoSelect (dst : string) (columns_list : list string) (src : string)
  | DropTable (table : string)
  | AlterTableRenameTo (table new_name : string)
  | AlterTableAddColumn (table column type : string).

(** The text each f-string of the source produces. *)
Definition sql_text (st : Statement) : string :=
  match st with
  | CreateTable t cols =>
      "CREATE TABLE " +:+ t +:+ " (" +:+
      join ", " ((λ col, col.1 +:+ " " +:+ col.2) <$> cols) +:+ ")"
  | CreateTableWithKey t =>
      "CREATE TABLE " +:+ t +:+ " (id INTEGER PRIMARY KEY AUTOINCREMENT)"
  | InsertIntoSelect dst cols src =>
      "INSERT INTO " +:+ dst +:+ " (" +:+ join ", " cols +:+ ") SELECT " +:+
      join ", " cols +:+ " FROM " +:+ src
  | DropTable t => "DROP TABLE " +:+ t
  | AlterTableRenameTo t n => "ALTER TABLE " +:+ t +:+ " RENAME TO " +:+ n
  | AlterTableAddColumn t c ty =>
      "ALTER TABLE " +:+ t +:+ " ADD COLUMN " +:+ c +:+ " " +:+ ty
  end.

(** Whether every name spliced into the text is a plain one. *)
Definition well_spelled (st : Statement) : bool :=
  match st with
  | CreateTable t cols => plain_name t && forallb plain_column cols
  | CreateTableWithKey t => plain_name t
  | InsertIntoSelect dst cols src =>
      plain_name dst && forallb plain_name cols && plain_name src
  | DropTable t => plain_name t
  | AlterTableRenameTo t n => plain_name t && plain_name n
  | AlterTableAddColumn t c ty => plain_name t && plain_name c && plain_type ty
  end.

(** ** The engine *)

(** [PRAGMA table_info(t)]: one (name, type) row per column; no row at all
    for a table that does not exist (the statement itself succeeds). *)
Definition table_info (db : Database) (t : string) : list (string * string) :=
  if plain_name t then
    match lookup_table t db with
    | Some tb => columns tb
    | None => []
    end
  else [].

(** The row [INSERT INTO dst (cols) SELECT cols FROM src] builds from a
    source row: listed columns are copied by name, the others are NULL. *)
Definition copied_row (dst_names cols src_names : list string)
    (r : list Value) : list Value :=
  (λ d, if has_name d cols then cell src_names r d else VNull) <$> dst_names.

(** The table [CREATE TABLE t (id INTEGER PRIMARY KEY AUTOINCREMENT)]
    makes. *)
Definition id_table : Table :=
  mkTable [("id", "INTEGER")] ["id PRIMARY KEY AUTOINCREMENT"] [].

(** The table in which the engine counts AUTOINCREMENT keys; it comes
    into being with the first table that has such a key, behind it. *)
Definition sqlite_sequence : Table := mkTable [("name", ""); ("seq", "")] [] [].

Definition with_sequence (d : Database) : Database :=
  match lookup_table "sqlite_sequence" d with
  | Some _ => d
  | None => d ++ [("sqlite_sequence", sqlite_sequence)]
  end.

(** The engine's verdict on one statement: [None] when it is rejected. *)
Definition engine (st : Statement) (db : Database) : option Database :=
  if negb (well_spelled st) then None
  else
    match st with
    | CreateTable t cols =>
        if bool_decide (cols = []) then None
        else if bool_decide ((length cols ≤ max_columns)%nat
                             ∧ NoDup (upper <$> cols.*1)) then
          match lookup_table t db with
          | Some _ => None
          | None => Some (db ++ [(t, mkTable cols [] [])])
          end
        else None
    | CreateTableWithKey t =>
        match lookup_table t db with
        | Some _ => None
        | None => Some (with_sequence (db ++ [(t, id_table)]))
        end
    | InsertIntoSelect dst cols src =>
        if bool_decide (cols = []) then None
        else
          d ← lookup_table dst db;
          s ← lookup_table src db;
          if forallb (λ c, has_name c (column_names d) && has_name c (column_names s))
               cols
          then Some (alter_table
                       (λ tb, mkTable (columns tb) (constraints tb)
                                (rows tb ++ (copied_row (column_names d) cols
                                               (column_names s) <$> rows s)))
                       dst db)
          else None
    | DropTable t =>
        match lookup_table t db with
        | Some _ => Some (drop_table t db)
        | None => None
        end
    | AlterTableRenameTo t n =>
        match lookup_table t db, lookup_table n db with
        | Some tb, None => Some (rename_table t n db)
        | _, _ => None
        end
    | AlterTableAddColumn t c ty =>
        tb ← lookup_table t db;
        if has_name c (column_names tb)
           || bool_decide ((max_columns ≤ length (columns tb))%nat) then None
        else Some (alter_table
                     (λ tb, mkTable (columns tb ++ [(c, ty)]) (constraints tb)
                              ((λ r, r ++ [VNull]) <$> rows tb))
                     t db)
    end.

(** ** [QSqlQuery] over the connection: a state monad on the database *)

Definition Sql (A : Type) : Type := Database → A * Database.

Definition sql_ret {A} (a : A) : Sql A := λ db, (a, db).
Definition sql_bind {A B} (m : Sql A) (k : A → Sql B) : Sql B :=
  λ db, let '(a, db') := m db in k a db'.

#[global] Instance Sql_ret : MRet Sql := @sql_ret.
#[global] Instance Sql_bind : MBind Sql := λ A B k m, sql_bind m k.

(** [query.exec(text)]: [True] and the new database, or [False] and the
    database as it was. *)
Definition query_exec (st : Statement) : Sql bool :=
  λ db, match engine st db with
        | Some db' => (true, db')
        | None => (false, db)
        end.

(** [query.exec("PRAGMA table_info(t)")] followed by the
    [while query.next()] loop that keeps the columns other than
    [column_name]. *)
Fixpoint collect_columns (result : list (string * string)) (column_name : string)
    (columns_info : list (string * string)) : list (string * string) :=
  match result with
  | [] => columns_info
  | (col_name, type) :: rest =>
      if negb (String.eqb col_name column_name)
      then collect_columns rest column_name (columns_info ++ [(col_name, type)])
      else collect_columns rest column_name columns_info
  end.

Definition pragma_columns (table_name column_name : string)
    : Sql (list (string * string)) :=
  λ db, (collect_columns (table_info db table_name) column_name [], db).

Definition temp_name (table_name : string) : string := table_name +:+ "_temp".

(** Lines 357-377 of [DatabaseViewer.delete_column]: no result of
    [query.exec] is looked at. *)
Definition delete_column_statements (table_name column_name : string) : Sql unit :=
  columns_info ← pragma_columns table_name column_name;
  let temp_table := temp_name table_name in
  query_exec (CreateTable temp_table columns_info);;
  let columns_list := columns_info.*1 in
  query_exec (InsertIntoSelect temp_table columns_list table_name);;
  query_exec (DropTable table_name);;
  query_exec (AlterTableRenameTo temp_table table_name);;
  mret tt.

(** [ALTER TABLE t ADD COLUMN c TEXT], as [add_column] and the two
    commands send it. *)
Definition add_column_statement (table_name column_name : string) : Statement :=
  AlterTableAddColumn table_name column_name "TEXT".

(** ** [QSqlTableModel]: the grid behind the table view *)

(** The roles the program passes to [data]; [data(index)] alone means
    [DisplayRole], [setData(index, value)] means [EditRole]. *)
Inductive ItemDataRole : Type := DisplayRole | EditRole | UserRole.

(** What Python hands to or gets from the model: an invalid variant
    (Python's [None]) or a value. *)
Inductive QVariant : Type :=
  | Invalid
  | Variant (v : Value).

#[global] Instance QVariant_eq_dec : EqDecision QVariant.
Proof. solve_decision. Defined.

Record QSqlTableModel : Type := mkModel {
  source_table : option string;   (* [setTable] name; [None] after [setQuery] *)
  header : list string;
  grid : list (list Value)
}.

Definition rowCount (m : QSqlTableModel) : nat := length (grid m).
Definition columnCount (m : QSqlTableModel) : nat := length (header m).

(** [headerData(i, Horizontal)] for [i] in [range(columnCount())]. *)
Definition headers (m : QSqlTableModel) : list string := header m.

(** The field the model holds at [row], [col]. *)
Definition cell_at (m : QSqlTableModel) (row col : nat) : option Value :=
  r ← grid m !! row; r !! col.

(** The Python value of a field: a NULL arrives as the empty string. *)
Definition to_python (x : Value) : Value :=
  match x with
  | VNull => VText EmptyString
  | _ => x
  end.

(** [QSqlTableModel.data(index, role)]: only the display and edit roles
    carry the cell; every other role yields an invalid variant. *)
Definition model_data (m : QSqlTableModel) (row col : nat) (role : ItemDataRole)
    : QVariant :=
  match role with
  | UserRole => Invalid
  | DisplayRole | EditRole =>
      match cell_at m row col with
      | Some x => Variant (to_python x)
      | None => Invalid
      end
  end.

(** The value a variant stores into a field: an invalid variant makes the
    field NULL. *)
Definition stored (q : QVariant) : Value :=
  match q with
  | Invalid => VNull
  | Variant x => x
  end.

Definition set_cell (g : list (list Value)) (row col : nat) (x : Value)
    : list (list Value) :=
  match g !! row with
  | Some r => <[row := <[col := x]> r]> g
  | None => g
  end.

(** What [setData(index(row, col), value)] leaves in the model's cache;
    an index outside the grid changes nothing. *)
Definition model_setData (m : QSqlTableModel) (row col : nat) (value : QVariant)
    : QSqlTableModel :=
  mkModel (source_table m) (header m) (set_cell (grid m) row col (stored value)).

(** [setTable(t)] then [select()]: the table as the engine holds it; a
    table that does not exist gives an empty model. *)
Definition select_table (db : Database) (t : string) : QSqlTableModel :=
  match lookup_table t db with
  | Some tb => mkModel (Some t) (column_names tb) (rows tb)
  | None => mkModel (Some t) [] []
  end.

(** ** The objects commands hold on to *)

(** [self.db] ([None]: no open connection) and every model object created
    so far; a command keeps the position of the model it was built with. *)
Record Store : Type := mkStore {
  db : option Database;
  models : list QSqlTableModel
}.

(** Run statements on the connection; on a closed connection every
    [exec] fails and nothing changes. *)
Definition on_connection (script : Sql unit) (s : Store) : Store :=
  match db s with
  | Some d => mkStore (Some (script d).2) (models s)
  | None => s
  end.

(** [setData] called by a command on model object [m].  The call
    returns at once when the index is outside the grid or the cell
    holds the value already.  Otherwise the model would signal
    [dataChanged] while the stack is running the command, and the
    handler would push onto that stack: this is left out ([None]). *)
Definition command_setData (m row col : nat) (value : QVariant) (s : Store)
    : option Store :=
  mo ← models s !! m;
  match cell_at mo row col with
  | None => Some s
  | Some old => if bool_decide (value = Variant old) then Some s else None
  end.

Definition is_text (x : Value) : bool :=
  match x with
  | VText _ => true
  | _ => false
  end.

(** What [submit] does with row [row] of model object [m] once the field
    at [col] was cached with the text [x] ([old_row] is the row as it
    was read): [UPDATE t SET col = x WHERE] every column has its old
    value, then the row is read back.  Modelled for a table without
    constraints (no key: the whole row identifies it) whose columns are
    the model's, a column declared TEXT and a row that is in the
    table. *)
Definition submit_row (m row col : nat) (x : Value) (old_row : list Value) (s : Store)
    : option Store :=
  mo ← models s !! m;
  t ← source_table mo;
  d ← db s;
  tb ← lookup_table t d;
  if bool_decide (constraints tb = [] ∧ header mo = column_names tb
                  ∧ old_row ∈ rows tb
                  ∧ (columns tb).*2 !! col = Some "TEXT"
                  ∧ is_text x = true)
  then Some (mkStore
               (Some (alter_table
                        (λ tb, mkTable (columns tb) (constraints tb)
                                 ((λ r, if bool_decide (r = old_row)
                                        then <[col := x]> old_row else r) <$> rows tb))
                        t d))
               (models s))
  else None.

(** ** Commands

    [AddRowCommand] (lines 430-443) is left out: nothing below depends
    on what it does, and the stack is generic in its commands. *)

Inductive Command : Type :=
  | UpdateCommand (model : nat) (row col : nat) (old_value new_value : QVariant)
  | AddColumnCommand (table_name column_name : string)
  | DeleteColumnCommand (table_name column_name : string).

(** [UpdateCommand.redo] / [UpdateCommand.undo]. *)
Definition UpdateCommand_redo (model row col : nat) (new_value : QVariant)
    : Store → option Store :=
  command_setData model row col new_value.

Definition UpdateCommand_undo (model row col : nat) (old_value : QVariant)
    : Store → option Store :=
  command_setData model row col old_value.

(** [AddColumnCommand.redo]. *)
Definition AddColumnCommand_redo (table_name column_name : string) : Store → Store :=
  on_connection (query_exec (add_column_statement table_name column_name);; mret tt).

(** [AddColumnCommand.undo]: the rebuild, written out a second time in
    the source (lines 460-476). *)
Definition AddColumnCommand_undo (table_name column_name : string) : Store → Store :=
  on_connection (
    columns_info ← pragma_columns table_name column_name;
    let temp_table := temp_name table_name in
    let columns_list := columns_info.*1 in
    query_exec (CreateTable temp_table columns_info);;
    query_exec (InsertIntoSelect temp_table columns_list table_name);;
    query_exec (DropTable table_name);;
    query_exec (AlterTableRenameTo temp_table table_name);;
    mret tt).

(** [DeleteColumnCommand.redo] (lines 486-503): the same five steps. *)
Definition DeleteColumnCommand_redo (table_name column_name : string) : Store → Store :=
  on_connection (
    columns_info ← pragma_columns table_name column_name;
    let temp_table := temp_name table_name in
    let columns_list := columns_info.*1 in
    query_exec (CreateTable temp_table columns_info);;
    query_exec (InsertIntoSelect temp_table columns_list table_name);;
    query_exec (DropTable table_name);;
    query_exec (AlterTableRenameTo temp_table table_name);;
    mret tt).

(** [DeleteColumnCommand.undo] (lines 505-508). *)
Definition DeleteColumnCommand_undo (table_name column_name : string) : Store → Store :=
  on_connection (query_exec (add_column_statement table_name column_name);; mret tt).

Definition command_redo (cmd : Command) (s : Store) : option Store :=
  match cmd with
  | UpdateCommand m row col _ new_value => UpdateCommand_redo m row col new_value s
  | AddColumnCommand t c => Some (AddColumnCommand_redo t c s)
  | DeleteColumnCommand t c => Some (DeleteColumnCommand_redo t c s)
  end.

Definition command_undo (cmd : Command) (s : Store) : option Store :=
  match cmd with
  | UpdateCommand m row col old_value _ => UpdateCommand_undo m row col old_value s
  | AddColumnCommand t c => Some (AddColumnCommand_undo t c s)
  | DeleteColumnCommand t c => Some (DeleteColumnCommand_undo t c s)
  end.

(** The value a command's [undo] hands to [setData], for the commands
    that call it. *)
Definition undo_value (cmd : Command) : option QVariant :=
  match cmd with
  | UpdateCommand _ _ _ old_value _ => Some old_value
  | _ => None
  end.

(** ** [QUndoStack] *)

(** The command list and the index of the next command to redo. *)
Record UndoStack (Cmd : Type) : Type := mkStack {
  command_list : list Cmd;
  index : nat
}.
Arguments mkStack {Cmd} _ _.
Arguments command_list {Cmd} _.
Arguments index {Cmd} _.

Section QUndoStack.
Context {Cmd World : Type}.
Variable cmd_redo : Cmd → World → World.
Variable cmd_undo : Cmd → World → World.

(** [push]: drop the commands from the index on, run the command's
    [redo], append it, step the index. *)
Definition QUndoStack_push (cmd : Cmd) (s : UndoStack Cmd * World)
    : UndoStack Cmd * World :=
  let kept := take (index s.1) (command_list s.1) in
  (mkStack (kept ++ [cmd]) (S (index s.1)), cmd_redo cmd s.2).

(** [undo]: nothing at index 0; else run [undo] of the command left of
    the index and step back. *)
Definition QUndoStack_undo (s : UndoStack Cmd * World) : UndoStack Cmd * World :=
  if bool_decide (index s.1 = 0) then s
  else
    let idx := index s.1 - 1 in
    match command_list s.1 !! idx with
    | Some cmd => (mkStack (command_list s.1) idx, cmd_undo cmd s.2)
    | None => s
    end.

(** [redo]: nothing when the index is at the end; else run [redo] of
    the command at the index and step forward. *)
Definition QUndoStack_redo (s : UndoStack Cmd * World) : UndoStack Cmd * World :=
  if bool_decide (index s.1 = length (command_list s.1)) then s
  else
    match command_list s.1 !! index s.1 with
    | Some cmd => (mkStack (command_list s.1) (S (index s.1)), cmd_redo cmd s.2)
    | None => s
    end.
End QUndoStack.

(** [clear]. *)
Definition QUndoStack_clear {Cmd : Type} : UndoStack Cmd := mkStack [] 0.

(** ** The clock *)

Record datetime : Type := mkDatetime {
  year : nat; month : nat; day : nat;
  hour : nat; minute : nat; second : nat
}.

Definition digit (n : nat) : ascii := ascii_of_nat (48 + n mod 10).

Definition two_digits (n : nat) : string :=
  String (digit (n / 10)) (String (digit n) EmptyString).

Definition four_digits (n : nat) : string :=
  String (digit (n / 1000)) (String (digit (n / 100)) (two_digits n)).

(** [strftime('%Y-%m-%d %H:%M:%S')]. *)
Definition strftime (t : datetime) : string :=
  four_digits (year t) +:+ "-" +:+ two_digits (month t) +:+ "-" +:+
  two_digits (day t) +:+ " " +:+ two_digits (hour t) +:+ ":" +:+
  two_digits (minute t) +:+ ":" +:+ two_digits (second t).

(** The item text [execute_query] adds to the history (line 226). *)
Definition history_item (now : datetime) (query_text : string) : string :=
  strftime now +:+ ": " +:+ slice_to 50 query_text +:+ "...".

Definition is_dot (c : ascii) : bool := Ascii.eqb c ".".

(** [load_query_from_history]: the text handed to [query_input.setText],
    or [None] when [split(": ", 1)[1]] raises [IndexError]. *)
Definition recalled_text (item_text : string) : option string :=
  match split_once ": " item_text with
  | Some (_, after) =>
      let query_text := after +:+ "..." in
      Some (rstrip is_dot query_text)
  | None => None
  end.

(** ** [csv.writer] with the default (excel) dialect *)

Definition quotechar : ascii := ascii_of_nat 34.
Definition CR : ascii := ascii_of_nat 13.
Definition LF : ascii := ascii_of_nat 10.

(** The characters that force a field into quotes: the delimiter, the
    quote character and the characters of the line terminator. *)
Definition needs_quotes (c : ascii) : bool :=
  Ascii.eqb c "," || Ascii.eqb c quotechar || Ascii.eqb c CR || Ascii.eqb c LF.

Fixpoint has_char (p : ascii → bool) (s : string) : bool :=
  match s with
  | EmptyString => false
  | String c rest => p c || has_char p rest
  end.

(** Every quote character inside a quoted field is doubled. *)
Fixpoint double_quotes (s : string) : string :=
  match s with
  | EmptyString => EmptyString
  | String c rest =>
      if Ascii.eqb c quotechar then String c (String c (double_quotes rest))
      else String c (double_quotes rest)
  end.

Definition quoted (s : string) : string :=
  String quotechar (double_quotes s +:+ String quotechar EmptyString).

(** One field under minimal quoting. *)
Definition csv_field (s : string) : string :=
  if has_char needs_quotes s then quoted s else s.

Definition CRLF : string := String CR (String LF EmptyString).

(** [writer.writerow(fields)]: the fields joined by commas and ended by
    the line terminator; a row made of one empty field is written as a
    pair of quotes. *)
Definition writerow (fields : list string) : string :=
  match fields with
  | [EmptyString] => quoted EmptyString +:+ CRLF
  | _ => join "," (csv_field <$> fields) +:+ CRLF
  end.

(** ** The window *)

(** A message box the user sees.  A critical box shows the given prefix
    followed by the engine's or the exception's own message. *)
Inductive Dialog : Type :=
  | WarningBox (text : string)
  | CriticalBox (prefix : string).

Record Viewer : Type := mkViewer {
  store : Store;                       (* [self.db] and the model objects *)
  model : option nat;                  (* [self.model] *)
  table_view : option nat;             (* the model [self.table_view] shows *)
  combo_items : list string;           (* [self.table_combo] *)
  combo_index : nat;
  undo_stack : UndoStack Command;
  status_bar : string;
  dialogs : list Dialog;               (* message boxes shown so far *)
  query_history : list string;         (* items of the history list *)
  query_input : string;                (* text of the query editor *)
  files : gmap string string           (* the files on disk: name, content *)
}.

Definition with_store (s : Store) (v : Viewer) : Viewer :=
  mkViewer s (model v) (table_view v) (combo_items v) (combo_index v) (undo_stack v)
    (status_bar v) (dialogs v) (query_history v) (query_input v) (files v).

(** A new model object becomes [self.model] and the model of the view
    ([self.table_view.setModel(self.model)]). *)
Definition with_model (s : Store) (m : option nat) (v : Viewer) : Viewer :=
  mkViewer s m m (combo_items v) (combo_index v) (undo_stack v)
    (status_bar v) (dialogs v) (query_history v) (query_input v) (files v).

Definition with_combo (items : list string) (i : nat) (v : Viewer) : Viewer :=
  mkViewer (store v) (model v) (table_view v) items i (undo_stack v)
    (status_bar v) (dialogs v) (query_history v) (query_input v) (files v).

Definition with_undo_stack (st : UndoStack Command * Store) (v : Viewer) : Viewer :=
  mkViewer st.2 (model v) (table_view v) (combo_items v) (combo_index v) st.1
    (status_bar v) (dialogs v) (query_history v) (query_input v) (files v).

Definition showMessage (text : string) (v : Viewer) : Viewer :=
  mkViewer (store v) (model v) (table_view v) (combo_items v) (combo_index v) (undo_stack v)
    text (dialogs v) (query_history v) (query_input v) (files v).

Definition show_dialog (d : Dialog) (v : Viewer) : Viewer :=
  mkViewer (store v) (model v) (table_view v) (combo_items v) (combo_index v) (undo_stack v)
    (status_bar v) (dialogs v ++ [d]) (query_history v) (query_input v) (files v).

Definition history_addItem (text : string) (v : Viewer) : Viewer :=
  mkViewer (store v) (model v) (table_view v) (combo_items v) (combo_index v) (undo_stack v)
    (status_bar v) (dialogs v) (query_history v ++ [text]) (query_input v) (files v).

Definition query_input_setText (text : string) (v : Viewer) : Viewer :=
  mkViewer (store v) (model v) (table_view v) (combo_items v) (combo_index v) (undo_stack v)
    (status_bar v) (dialogs v) (query_history v) text (files v).

(** [open(name, 'w')] and the writes: the file holds the new content,
    whatever it held before. *)
Definition write_file (name content : string) (v : Viewer) : Viewer :=
  mkViewer (store v) (model v) (table_view v) (combo_items v) (combo_index v) (undo_stack v)
    (status_bar v) (dialogs v) (query_history v) (query_input v)
    (<[name := content]> (files v)).

(** What the file system does with an export: the file is written; or
    [open] raises and no file is touched; or a write raises and the file
    is left with what got through. *)
Inductive Outcome : Type :=
  | Written
  | OpenRaised
  | WriteRaised (partial : string).

(** [self.table_combo.currentText()]. *)
Definition currentText (v : Viewer) : string :=
  default EmptyString (combo_items v !! combo_index v).

(** [self.db.tables()]: the names in [sqlite_master] order. *)
Definition tables (d : Database) : list string := d.*1.

(** [self.undo_stack.push(cmd)] and [self.undo_stack.undo()] (the Undo
    action), on the window's store; [None] when the command's [redo] or
    [undo] leaves what is modelled. *)
Definition stack_redo (cmd : Command) (w : option Store) : option Store :=
  w ≫= command_redo cmd.

Definition stack_undo (cmd : Command) (w : option Store) : option Store :=
  w ≫= command_undo cmd.

Definition push (cmd : Command) (v : Viewer) : option Viewer :=
  let pushed := QUndoStack_push stack_redo cmd (undo_stack v, Some (store v)) in
  s ← pushed.2; Some (with_undo_stack (pushed.1, s) v).

Definition undo (v : Viewer) : option Viewer :=
  let undone := QUndoStack_undo stack_undo (undo_stack v, Some (store v)) in
  s ← undone.2; Some (with_undo_stack (undone.1, s) v).

(** [display_table] (lines 165-184): a fresh model object for the table
    becomes [self.model]. *)
Definition display_table (table_name : string) (v : Viewer) : Viewer :=
  if bool_decide (table_name = EmptyString) then v
  else match db (store v) with
       | None => v
       | Some d =>
           let s := mkStore (Some d) (models (store v) ++ [select_table d table_name]) in
           showMessage ("Displaying table: " +:+ table_name)
             (with_model s (Some (length (models (store v)))) v)
       end.

(** [table_combo.clear()] then [table_combo.addItems(names)]: the combo
    signals its new current text to [display_table]. *)
Definition refresh_combo (names : list string) (v : Viewer) : Viewer :=
  display_table (default EmptyString (names !! 0)) (with_combo names 0 v).

(** [on_data_changed] (lines 186-211), run when a model signals that
    the cell at [row], [col] changed; [self.model] is read.  The command
    it pushes holds the value just read, so that the [redo] run by
    [push] finds it in the cell, unless the cell is NULL, which Python
    read as the empty string. *)
Definition on_data_changed (row col : nat) (v : Viewer) : option Viewer :=
  m ← model v;
  mo ← models (store v) !! m;
  let new_value := model_data mo row col DisplayRole in
  let old_value := model_data mo row col UserRole in
  if bool_decide (old_value ≠ new_value)
  then showMessage ("Cell updated at row " +:+ pretty row +:+
                    ", column " +:+ pretty col)
         <$> push (UpdateCommand m row col old_value new_value) v
  else Some v.

(** The user commits the text [x] in the grid: the view calls [setData]
    on its model.  For a cell that holds another value the model
    caches the field and signals [dataChanged] for the cell, then
    submits the row and signals [dataChanged] from the first to the
    last cell of the row, of which the handler reads the first. *)
Definition edit_cell (row col : nat) (x : Value) (v : Viewer) : option Viewer :=
  m ← table_view v;
  mo ← models (store v) !! m;
  old_row ← grid mo !! row;
  old ← old_row !! col;
  if bool_decide (old = x) then Some v
  else
    let cached := <[m := model_setData mo row col (Variant x)]> (models (store v)) in
    v1 ← on_data_changed row col (with_store (mkStore (db (store v)) cached) v);
    s ← submit_row m row col x old_row (store v1);
    on_data_changed row 0 (with_store s v1).

(** The cell the grid shows at [row], [col]. *)
Definition shown_cell (row col : nat) (v : Viewer) : option Value :=
  m ← table_view v;
  mo ← models (store v) !! m;
  cell_at mo row col.

(** [add_column] (lines 319-338); [column_name] and [ok] are what the
    input dialog returns. *)
Definition add_column (column_name : string) (ok : bool) (v : Viewer) : option Viewer :=
  match db (store v) with
  | None => Some (show_dialog (WarningBox "No table selected or no database connected") v)
  | Some d =>
      if bool_decide (currentText v = EmptyString)
      then Some (show_dialog (WarningBox "No table selected or no database connected") v)
      else if ok && negb (bool_decide (column_name = EmptyString)) then
        let table_name := currentText v in
        match query_exec (add_column_statement table_name column_name) d with
        | (true, d') =>
            let v1 := with_store (mkStore (Some d') (models (store v))) v in
            let v2 := display_table table_name v1 in
            let v3 := showMessage ("Column " +:+ column_name +:+ " added") v2 in
            push (AddColumnCommand table_name column_name) v3
        | (false, _) => Some (show_dialog (CriticalBox "Error adding column: ") v)
        end
      else Some v
  end.

(** [delete_column] (lines 340-384).  [choice] and [ok] are what the item
    dialog returns (the dialog is not editable: the name is one of the
    model's headers), [yes] is the answer to the confirmation.  The
    result is [None] when [self.model] is [None] and reading its headers
    raises outside the [try].  Inside the [try] nothing raises: [exec]
    reports a failure by its result, which is not read, so the [except]
    branch with its error box is never taken. *)
Definition delete_column (choice : nat) (ok yes : bool) (v : Viewer) : option Viewer :=
  match db (store v) with
  | None => Some (show_dialog (WarningBox "No table selected or no database connected") v)
  | Some d =>
      if bool_decide (currentText v = EmptyString)
      then Some (show_dialog (WarningBox "No table selected or no database connected") v)
      else
        let table_name := currentText v in
        mo ← (m ← model v; models (store v) !! m);
        let columns := headers mo in
        let column_name := default EmptyString (columns !! choice) in
        if ok && negb (bool_decide (column_name = EmptyString)) && yes then
          let d' := (delete_column_statements table_name column_name d).2 in
          let v1 := with_store (mkStore (Some d') (models (store v))) v in
          let v2 := display_table table_name v1 in
          let v3 := showMessage ("Column " +:+ column_name +:+ " deleted") v2 in
          push (DeleteColumnCommand table_name column_name) v3
        else Some v
  end.

(** [load_query_from_history] (lines 419-421) on the item with the given
    text; [None] when the handler raises. *)
Definition load_query_from_history (item_text : string) (v : Viewer) : option Viewer :=
  text ← recalled_text item_text;
  Some (query_input_setText text v).

Section Collaborators.
(** The engine on a statement typed by the user: rejected, or the new
    database and the result set (headers, rows). *)
Variable sqlite : string → Database → option (Database * (list string * list (list Value))).

(** Python's [str] on what [model.data] hands back. *)
Variable str : QVariant → string.

(** [execute_query] (lines 213-247) at clock reading [now]. *)
Definition execute_query (now : datetime) (v : Viewer) : Viewer :=
  match db (store v) with
  | None => show_dialog (WarningBox "No database connected") v
  | Some d =>
      let query_text := strip (query_input v) in
      if bool_decide (query_text = EmptyString) then v
      else
        match sqlite query_text d with
        | Some (d', (result_header, result_rows)) =>
            let v1 := history_addItem (history_item now query_text)
                        (with_store (mkStore (Some d') (models (store v))) v) in
            if startswith "SELECT" (upper (strip query_text))
            then
              let s := mkStore (Some d')
                         (models (store v1) ++ [mkModel None result_header result_rows]) in
              showMessage "Query executed successfully"
                (with_model s (Some (length (models (store v1)))) v1)
            else
              showMessage "Query executed successfully" (refresh_combo (tables d') v1)
        | None =>
            showMessage "Query execution failed"
              (show_dialog (CriticalBox "Query error: ") v)
        end
  end.

(** The rows [export_to_csv] hands to the writer: the headers, then
    every cell of every row through [str]. *)
Definition csv_rows (mo : QSqlTableModel) : list (list string) :=
  headers mo ::
  ((λ row, (λ col, str (model_data mo row col DisplayRole)) <$> seq 0 (columnCount mo))
     <$> seq 0 (rowCount mo)).

Definition csv_text (mo : QSqlTableModel) : string :=
  foldr (λ fields rest, writerow fields +:+ rest) EmptyString (csv_rows mo).

(** [export_to_csv] (lines 386-417); [file_name] is what the save
    dialog returns, [io] what becomes of the file.  When [open] or a
    write raises, the [except] branch shows the error. *)
Definition export_to_csv (file_name : string) (io : Outcome) (v : Viewer) : Viewer :=
  match (m ← model v; models (store v) !! m) with
  | None => show_dialog (WarningBox "No table selected") v
  | Some mo =>
      if bool_decide (file_name = EmptyString) then v
      else
        match io with
        | Written =>
            showMessage ("Exported to " +:+ file_name)
              (write_file file_name (csv_text mo) v)
        | OpenRaised =>
            showMessage "Export failed"
              (show_dialog (CriticalBox "Error exporting to CSV: ") v)
        | WriteRaised partial =>
            showMessage "Export failed"
              (show_dialog (CriticalBox "Error exporting to CSV: ")
                 (write_file file_name partial v))
        end
  end.
End Collaborators.

(** ** The rest of the window

    [add_row] and [AddRowCommand] stay out: what they do is decided by
    how [QSqlTableModel] inserts and submits rows, which is not
    modelled. *)

(** [DatabaseViewer.__init__] (lines 40-125): no connection, no model,
    an empty undo stack, empty lists. *)
Definition DatabaseViewer_init (disk : gmap string string) : Viewer :=
  mkViewer (mkStore None []) None None [] 0 (mkStack [] 0) "No database connected"
    [] [] EmptyString disk.

(** [closeEvent] (lines 423-428): the connection is closed. *)
Definition closeEvent (v : Viewer) : Viewer :=
  with_store (mkStore None (models (store v))) v.

(** [open_database] (lines 127-163).  [file_name] is what the file dialog
    returns; [opened] is the database behind that file when
    [self.db.open()] succeeds.  Any connection open before is closed
    first.  The box shown on failure carries no further message. *)
Definition open_database (file_name : string) (opened : option Database)
    (v : Viewer) : Viewer :=
  if bool_decide (file_name = EmptyString) then v
  else
    match opened with
    | None =>
        showMessage "Database connection failed"
          (show_dialog (CriticalBox "Could not open database")
             (with_store (mkStore None (models (store v))) v))
    | Some d =>
        let v1 := with_store (mkStore (Some d) (models (store v))) v in
        let v2 := refresh_combo (tables d) v1 in
        let v3 := showMessage ("Connected to: " +:+ file_name) v2 in
        let v4 := with_undo_stack (QUndoStack_clear, store v3) v3 in
        match tables d with
        | [] => v4
        | first :: _ => display_table first v4
        end
    end.

(** [create_table] (lines 249-268); [table_name] and [ok] are what the
    input dialog returns. *)
Definition create_table (table_name : string) (ok : bool) (v : Viewer) : Viewer :=
  match db (store v) with
  | None => show_dialog (WarningBox "No database connected") v
  | Some d =>
      if ok && negb (bool_decide (table_name = EmptyString)) then
        match query_exec (CreateTableWithKey table_name) d with
        | (true, d') =>
            let v1 := with_store (mkStore (Some d') (models (store v))) v in
            showMessage ("Table " +:+ table_name +:+ " created")
              (refresh_combo (tables d') v1)
        | (false, _) => show_dialog (CriticalBox "Error creating table: ") v
        end
      else v
  end.

(** [self.table_view.setModel(None)]. *)
Definition clear_view (v : Viewer) : Viewer :=
  mkViewer (store v) (model v) None (combo_items v) (combo_index v) (undo_stack v)
    (status_bar v) (dialogs v) (query_history v) (query_input v) (files v).

(** [delete_table] (lines 270-294); [yes] is the answer to the
    confirmation.  The table view is emptied ([setModel(None)]) while
    [self.model] stays. *)
Definition delete_table (yes : bool) (v : Viewer) : Viewer :=
  match db (store v) with
  | None => show_dialog (WarningBox "No database connected") v
  | Some d =>
      let table_name := currentText v in
      if bool_decide (table_name = EmptyString) then v
      else if yes then
        match query_exec (DropTable table_name) d with
        | (true, d') =>
            let v1 := with_store (mkStore (Some d') (models (store v))) v in
            showMessage ("Table " +:+ table_name +:+ " deleted")
              (clear_view (refresh_combo (tables d') v1))
        | (false, _) => show_dialog (CriticalBox "Error deleting table: ") v
        end
      else v
  end.

(** A Python [dict] with string keys, in insertion order: [d[k] = x]
    keeps the place of a key that is already there. *)
Fixpoint dict_set (k x : string) (d : list (string * string)) : list (string * string) :=
  match d with
  | [] => [(k, x)]
  | (k', x') :: rest =>
      if String.eqb k' k then (k', x) :: rest else (k', x') :: dict_set k x rest
  end.

(** [AddRowDialog.get_values] (lines 36-37): [inputs] are the headers
    with the text typed into their fields, in column order. *)
Definition get_values (inputs : list (string * string)) : list (string * string) :=
  foldl (λ d input, dict_set input.1 input.2 d) [] inputs.

(** ** Vocabulary of the properties *)

(** Every row has one value per column. *)
Definition full_rows (tb : Table) : Prop :=
  Forall (λ r, length r = length (columns tb)) (rows tb).

(** A table declared by column names and types alone, as the engine
    keeps it: no constraint, plain and distinct column names, plain
    types, between one and [max_columns] columns, one value per column
    in every row. *)
Definition plain_table (tb : Table) : Prop :=
  constraints tb = []
  ∧ Forall (λ col, plain_column col = true) (columns tb)
  ∧ NoDup (upper <$> column_names tb)
  ∧ columns tb ≠ []
  ∧ (length (columns tb) ≤ max_columns)%nat
  ∧ full_rows tb.

(** The columns other than [c], in their order. *)
Definition surviving (tb : Table) (c : string) : list (string * string) :=
  filter (λ col, col.1 ≠ c) (columns tb).

(** The table with column [c] cut out of the column list and of every
    row; only names and types come along, no constraint. *)
Definition without_column (tb : Table) (c : string) : Table :=
  mkTable (surviving tb c) []
    ((λ r, (λ k, cell (column_names tb) r k) <$> (surviving tb c).*1) <$> rows tb).

(** The table with a TEXT column [c] appended, NULL in every row. *)
Definition with_null_column (tb : Table) (c : string) : Table :=
  mkTable (columns tb ++ [(c, "TEXT")]) (constraints tb)
    ((λ r, r ++ [VNull]) <$> rows tb).

(** The database after a rebuild of table [t] into [tb]: the table has
    left its place and stands last, under the name the statements
    spell. *)
Definition moved_last (t : string) (tb : Table) (d : Database) : Database :=
  drop_table t d ++ [(t, tb)].

(** Whether the last character of [s] satisfies [p]. *)
Fixpoint ends_with (p : ascii → bool) (s : string) : bool :=
  match s with
  | EmptyString => false
  | String c EmptyString => p c
  | String _ rest => ends_with p rest
  end.

Definition is_line_break (c : ascii) : bool := Ascii.eqb c CR || Ascii.eqb c LF.

(** The lines of a text, as reading it back gives them: a line ends at
    CR LF, at a lone LF or at a lone CR (a last line may lack its
    terminator). *)
Fixpoint lines (s : string) : list string :=
  match s with
  | EmptyString => []
  | String c rest =>
      if Ascii.eqb c LF then EmptyString :: lines rest
      else if Ascii.eqb c CR then
        match rest with
        | String c2 rest2 =>
            if Ascii.eqb c2 LF then EmptyString :: lines rest2
            else EmptyString :: lines rest
        | EmptyString => [EmptyString]
        end
      else
        match lines rest with
        | [] => [String c EmptyString]
        | l :: ls => String c l :: ls
        end
  end.

(** One record as [writerow] lays it out, without the terminator. *)
Definition record_line (fields : list string) : string :=
  match fields with
  | [EmptyString] => quoted EmptyString
  | _ => join "," (csv_field <$> fields)
  end.

(** No field of any record holds a CR or LF. *)
Definition unbroken (records : list (list string)) : Prop :=
  Forall (Forall (λ s, has_char is_line_break s = false)) records.

(** The table [t] of the connection of a window, when there is one. *)
Definition table_of (t : string) (v : Viewer) : option Table :=
  d ← db (store v); lookup_table t d.

(** Whether some colon of [s] is directly followed by a space. *)
Fixpoint has_colon_space (s : string) : bool :=
  match s with
  | EmptyString => false
  | String c rest =>
      (Ascii.eqb c ":" && match rest with
                          | String c2 _ => Ascii.eqb c2 " "
                          | EmptyString => false
                          end)
      || has_colon_space rest
  end.

(** The values of column [c] of table [t] on the connection of a window. *)
Definition column_of (t c : string) (v : Viewer) : option (list Value) :=
  d ← db (store v); column_values d t c.

(** Whether a statement is shown as a query result (line 229). *)
Definition is_select (query_text : string) : bool :=
  startswith "SELECT" (upper (strip query_text)).

(** [f] applied [n] times. *)
Fixpoint repeated {A : Type} (n : nat) (f : A → A) (a : A) : A :=
  match n with
  | O => a
  | S k => f (repeated k f a)
  end.

(** The last value given for key [k]. *)
Fixpoint last_value (k : string) (inputs : list (string * string)) : option string :=
  match inputs with
  | [] => None
  | (k', x) :: rest =>
      match last_value k rest with
      | Some y => Some y
      | None => if String.eqb k' k then Some x else None
      end
  end.

(** Whether every character of [s] is white space. *)
Definition blank (s : string) : bool := negb (has_char (λ c, negb (is_space c)) s).

(** The outcome of the drop-column statements when the temporary name is
    free. *)
Definition rebuilt (d : Database) (t c : string) : Database :=
  match lookup_table t d with
  | None => d
  | Some tb =>
      if bool_decide (surviving tb c = []) then drop_table t d
      else moved_last t (without_column tb c) d
  end.

(** The tables a statement can change. *)
Definition written (st : Statement) : list string :=
  match st with
  | CreateTable t _ => [t]
  | CreateTableWithKey t => [t; "sqlite_sequence"]
  | InsertIntoSelect dst _ _ => [dst]
  | DropTable t => [t]
  | AlterTableRenameTo t n => [t; n]
  | AlterTableAddColumn t _ _ => [t]
  end.

(** A database all of whose tables are declared by plain column names
    and types alone. *)
Definition plain_database (d : Database) : Prop := Forall (λ e, plain_table e.2) d.

(** Table [u] on the connection of a store. *)
Definition stored_table (u : string) (s : Store) : option Table :=
  d ← db s; lookup_table u d.

(** ** Sample data *)

Definition people : Table :=
  mkTable [("id", "INTEGER"); ("name", "TEXT"); ("age", "TEXT")] []
    [[VInt 1; VText "Ann"; VText "30"]; [VInt 2; VText "Bob"; VNull]].

Definition people_db : Database := [("people", people)].

(** A table that already sits under the temporary name, spelled in
    capitals. *)
Definition leftover : Table :=
  mkTable [("id", "INTEGER"); ("name", "TEXT")] [] [[VInt 9; VText "Zed"]].

Definition crowded_db : Database := [("people", people); ("PEOPLE_TEMP", leftover)].

(** A table as [create_table] leaves it, with two rows. *)
Definition ids_only : Table :=
  mkTable [("id", "INTEGER")] ["id PRIMARY KEY AUTOINCREMENT"] [[VInt 1]; [VInt 2]].

Definition ids_db : Database := [("t", ids_only)].

(** A table whose only column is plain text. *)
Definition notes : Table := mkTable [("note", "TEXT")] [] [[VText "call Ann"]].

(** Two tables, [zoo] made after [people]. *)
Definition zoo : Table := mkTable [("animal", "TEXT")] [] [[VText "gnu"]].

Definition town_db : Database := [("people", people); ("zoo", zoo)].

(** A window connected to [d] with [table] selected and displayed. *)
Definition window (d : Database) (table : string) : Viewer :=
  display_table table
    (mkViewer (mkStore (Some d) []) None None [table] 0 (mkStack [] 0)
       EmptyString [] [] EmptyString ∅).

(** A window on [people_db] whose grid shows the result of a query with
    the single header [x], as [execute_query] leaves it after a SELECT. *)
Definition query_window : Viewer :=
  mkViewer (mkStore (Some people_db) [mkModel None ["x"] [[VInt 1]]]) (Some 0) (Some 0)
    ["people"] 0 (mkStack [] 0) "Query executed successfully" [] [] EmptyString ∅.

(** An engine that rejects every statement, and one that accepts every
    statement, changes nothing and returns no row. *)
Definition rejecting (q : string) (d : Database)
    : option (Database * (list string * list (list Value))) := None.

Definition accepting (q : string) (d : Database)
    : option (Database * (list string * list (list Value))) := Some (d, ([], [])).

(** A window on [people_db] with a statement typed into the editor. *)
Definition typed_window (text : string) : Viewer :=
  query_input_setText text (window people_db "people").

(** Python's [str] on integers and strings; no value prints as [None]. *)
Definition show_value (q : QVariant) : string :=
  match q with
  | Variant (VInt n) => pretty n
  | Variant (VText s) => s
  | Variant VNull => EmptyString
  | Invalid => "None"
  end.

(** A grid with one row whose name spans two lines. *)
Definition two_line_name : QSqlTableModel :=
  mkModel (Some "people") ["id"; "name"]
    [[VInt 1; VText ("Ann" +:+ String LF "Lee")]].

(** * Properties *)

(** ** Strings and names *)

Lemma append_nil_l (b : string) : EmptyString +:+ b = b.
Proof. reflexivity. Qed.

Lemma append_cons (c : ascii) (a b : string) :
  String c a +:+ b = String c (a +:+ b).
Proof. reflexivity. Qed.

Lemma length_append (a b : string) :
  String.length (a +:+ b) = String.length a + String.length b.
Proof.
  induction a as [|c a IH]; [done|].
  rewrite append_cons. simpl. by rewrite IH.
Qed.

Lemma append_assoc (a b c : string) : (a +:+ b) +:+ c = a +:+ (b +:+ c).
Proof.
  induction a as [|x a IH]; [done|]. rewrite !append_cons. by rewrite IH.
Qed.

Lemma upper_append a b : upper (a +:+ b) = upper a +:+ upper b.
Proof.
  induction a as [|c a IH]; [done|].
  rewrite !append_cons. simpl. by rewrite IH, append_cons.
Qed.

Lemma length_upper a : String.length (upper a) = String.length a.
Proof. induction a as [|c a IH]; [done|]. simpl. by rewrite IH. Qed.

Lemma same_name_true a b : same_name a b = true ↔ upper a = upper b.
Proof. unfold same_name. apply String.eqb_eq. Qed.

Lemma same_name_false a b : same_name a b = false ↔ upper a ≠ upper b.
Proof. unfold same_name. apply String.eqb_neq. Qed.

Lemma same_name_refl a : same_name a a = true.
Proof. by apply same_name_true. Qed.

Lemma same_name_sym a b : same_name a b = same_name b a.
Proof. unfold same_name. apply String.eqb_sym. Qed.

(** Names that denote the same are alike for every third name. *)
Lemma same_name_subst a b c : same_name a b = true → same_name a c = same_name b c.
Proof. intros H%same_name_true. unfold same_name. by rewrite H. Qed.

Lemma temp_name_other t : same_name (temp_name t) t = false.
Proof.
  apply same_name_false. unfold temp_name. intros H.
  apply (f_equal String.length) in H.
  rewrite !length_upper, length_append in H. simpl in H. lia.
Qed.

Lemma temp_name_fresh t : temp_name t ≠ t.
Proof.
  intros H. pose proof (temp_name_other t) as Hn. rewrite H in Hn.
  by rewrite same_name_refl in Hn.
Qed.

Lemma all_chars_append p a b : all_chars p (a +:+ b) = all_chars p a && all_chars p b.
Proof.
  induction a as [|c a IH]; [done|].
  rewrite append_cons. simpl. by rewrite IH, andb_assoc.
Qed.

Lemma identifier_temp t : identifier t = true → identifier (temp_name t) = true.
Proof.
  destruct t as [|c t]; [done|]. unfold temp_name. rewrite append_cons. simpl.
  intros [Hc Ht]%andb_true_iff. by rewrite Hc, all_chars_append, Ht.
Qed.

Lemma reserved_temp a :
  startswith "SQLITE" (upper a) = false →
  startswith "SQLITE" (upper (temp_name a)) = false.
Proof.
  unfold startswith, temp_name.
  destruct a as [|c1 [|c2 [|c3 [|c4 [|c5 [|c6 a]]]]]];
    rewrite ?append_cons, ?append_nil_l; cbn [upper strip_prefix];
    repeat match goal with
           | |- context [Ascii.eqb ?x ?y] => destruct (Ascii.eqb x y) eqn:?
           end; done.
Qed.

(** No keyword ends in [_TEMP]. *)
Lemma keyword_temp (x : string) : x +:+ "_TEMP" ∉ keywords.
Proof.
  intros Hin.
  assert (∀ kw, kw ∈ keywords →
            String.length kw < 5
            ∨ String.substring (String.length kw - 5) 5 kw ≠ "_TEMP") as Hkw.
  { intros kw Hkw. revert kw Hkw. apply Forall_forall.
    apply (bool_decide_unpack _). vm_compute. exact I. }
  destruct (Hkw _ Hin) as [Hlen|Hsub].
  - rewrite length_append in Hlen. simpl in Hlen. lia.
  - apply Hsub. rewrite length_append. simpl.
    replace (String.length x + 5 - 5) with (String.length x) by lia.
    clear. induction x as [|c x IH]; [done|]. rewrite append_cons. simpl. exact IH.
Qed.

(** The temporary name of a plain name is plain. *)
Lemma plain_temp_name t : plain_name t = true → plain_name (temp_name t) = true.
Proof.
  unfold plain_name. intros [[Hid Hkw]%andb_true_iff Hres]%andb_true_iff.
  apply negb_true_iff in Hres. rewrite identifier_temp, reserved_temp by done.
  rewrite bool_decide_eq_false_2; [done|].
  unfold temp_name. rewrite upper_append. apply keyword_temp.
Qed.

(** ** The database as a list of named tables *)

Lemma lookup_table_app t (d1 d2 : Database) :
  lookup_table t (d1 ++ d2)
  = match lookup_table t d1 with
    | Some tb => Some tb
    | None => lookup_table t d2
    end.
Proof.
  induction d1 as [|[n tb] d1 IH]; [done|]. simpl.
  by destruct (same_name n t).
Qed.

Lemma lookup_table_last t n tb (d : Database) :
  lookup_table t d = None →
  lookup_table t (d ++ [(n, tb)]) = if same_name n t then Some tb else None.
Proof. intros H. by rewrite lookup_table_app, H. Qed.

Lemma lookup_table_found t n tb (d : Database) x :
  lookup_table t d = Some x → lookup_table t (d ++ [(n, tb)]) = Some x.
Proof. intros H. by rewrite lookup_table_app, H. Qed.

(** The same table under a name that denotes the same. *)
Lemma lookup_table_same t u (d : Database) :
  same_name t u = true → lookup_table t d = lookup_table u d.
Proof.
  intros H. induction d as [|[n tb] d IH]; [done|]. simpl.
  rewrite (same_name_sym n t), (same_name_sym n u), (same_name_subst t u n H).
  by rewrite IH.
Qed.

Lemma lookup_drop_eq t (d : Database) : lookup_table t (drop_table t d) = None.
Proof.
  unfold drop_table. induction d as [|[n tb] d IH]; [done|].
  destruct (same_name n t) eqn:E.
  - rewrite filter_cons_False by (simpl; congruence). done.
  - rewrite filter_cons_True by done. simpl. by rewrite E.
Qed.

Lemma lookup_drop_ne t u (d : Database) :
  same_name u t = false → lookup_table u (drop_table t d) = lookup_table u d.
Proof.
  intros Hut. unfold drop_table. induction d as [|[n tb] d IH]; [done|].
  destruct (same_name n t) eqn:E.
  - rewrite filter_cons_False by (simpl; congruence). simpl.
    rewrite (same_name_subst n t u E), (same_name_sym t u), Hut. done.
  - rewrite filter_cons_True by done. simpl. by rewrite IH.
Qed.

Lemma drop_table_none t (d : Database) : lookup_table t d = None → drop_table t d = d.
Proof.
  unfold drop_table. induction d as [|[n tb] d IH]; [done|]. simpl.
  destruct (same_name n t) eqn:E; [done|]. intros H.
  rewrite filter_cons_True by done. by rewrite IH.
Qed.

Lemma drop_table_app t (d1 d2 : Database) :
  drop_table t (d1 ++ d2) = drop_table t d1 ++ drop_table t d2.
Proof. unfold drop_table. apply filter_app. Qed.

Lemma drop_table_last_eq t n tb (d : Database) :
  same_name n t = true → drop_table t (d ++ [(n, tb)]) = drop_table t d.
Proof.
  intros H. rewrite drop_table_app. unfold drop_table at 2.
  rewrite filter_cons_False by (simpl; congruence). by rewrite filter_nil, app_nil_r.
Qed.

Lemma drop_table_last_ne t n tb (d : Database) :
  same_name n t = false → drop_table t (d ++ [(n, tb)]) = drop_table t d ++ [(n, tb)].
Proof.
  intros H. rewrite drop_table_app. unfold drop_table at 2.
  by rewrite filter_cons_True, filter_nil by done.
Qed.

Lemma drop_table_twice t (d : Database) : drop_table t (drop_table t d) = drop_table t d.
Proof. apply drop_table_none, lookup_drop_eq. Qed.

Lemma alter_table_none f t (d : Database) :
  lookup_table t d = None → alter_table f t d = d.
Proof.
  unfold alter_table. induction d as [|[n tb] d IH]; [done|]. csimpl.
  destruct (same_name n t) eqn:E; [done|]. intros H. by rewrite IH.
Qed.

Lemma alter_table_last f t n tb (d : Database) :
  lookup_table t d = None → same_name n t = true →
  alter_table f t (d ++ [(n, tb)]) = d ++ [(n, f tb)].
Proof.
  intros Hd Hn. unfold alter_table. rewrite fmap_app. csimpl. rewrite Hn.
  f_equal. by apply alter_table_none.
Qed.

Lemma lookup_alter_ne f t u (d : Database) :
  same_name u t = false → lookup_table u (alter_table f t d) = lookup_table u d.
Proof.
  intros Hut. unfold alter_table. induction d as [|[n tb] d IH]; [done|]. csimpl.
  destruct (same_name n t) eqn:E; csimpl; [|by rewrite IH].
  rewrite (same_name_subst n t u E), (same_name_sym t u), Hut. done.
Qed.

Lemma lookup_alter_eq f t (d : Database) :
  lookup_table t (alter_table f t d) = f <$> lookup_table t d.
Proof.
  unfold alter_table. induction d as [|[n tb] d IH]; [done|]. csimpl.
  destruct (same_name n t) eqn:E; csimpl; by rewrite E.
Qed.

Lemma rename_table_none t n (d : Database) :
  lookup_table t d = None → rename_table t n d = d.
Proof.
  unfold rename_table. induction d as [|[k tb] d IH]; [done|]. csimpl.
  destruct (same_name k t) eqn:E; [done|]. intros H. by rewrite IH.
Qed.

Lemma rename_table_last t n k tb (d : Database) :
  lookup_table t d = None → same_name k t = true →
  rename_table t n (d ++ [(k, tb)]) = d ++ [(n, tb)].
Proof.
  intros Hd Hk. unfold rename_table. rewrite fmap_app. csimpl. rewrite Hk.
  f_equal. by apply rename_table_none.
Qed.

Lemma lookup_rename_ne t n u (d : Database) :
  same_name u t = false → same_name u n = false →
  lookup_table u (rename_table t n d) = lookup_table u d.
Proof.
  intros Hut Hun. unfold rename_table. induction d as [|[k tb] d IH]; [done|]. csimpl.
  destruct (same_name k t) eqn:E; csimpl; [|by rewrite IH].
  rewrite (same_name_sym n u), Hun, IH.
  rewrite (same_name_subst k t u E), (same_name_sym t u), Hut. done.
Qed.

Lemma lookup_table_Some_elem t (d : Database) tb :
  lookup_table t d = Some tb → ∃ n, (n, tb) ∈ d ∧ same_name n t = true.
Proof.
  induction d as [|[n x] d IH]; [done|]. simpl.
  destruct (same_name n t) eqn:E.
  - intros [= ->]. exists n. split; [by left|done].
  - intros H. destruct (IH H) as (k & Hin & Hk). exists k. split; [by right|done].
Qed.

Lemma lookup_table_None_elem t (d : Database) n tb :
  lookup_table t d = None → (n, tb) ∈ d → same_name n t = false.
Proof.
  induction d as [|[k x] d IH]; [by intros _ ?%elem_of_nil|]. simpl.
  destruct (same_name k t) eqn:E; [done|].
  intros H [[= -> ->]|Hin]%elem_of_cons; [done|]. by apply IH.
Qed.

(** ** Columns by name *)

Lemma has_name_elem c names : c ∈ names → has_name c names = true.
Proof.
  unfold has_name. induction names as [|n names IH]; [by intros ?%elem_of_nil|].
  simpl. intros [->|Hin]%elem_of_cons.
  - by rewrite same_name_refl.
  - rewrite IH by done. apply orb_true_r.
Qed.

Lemma has_name_upper c names : has_name c names = true ↔ upper c ∈ upper <$> names.
Proof.
  unfold has_name. induction names as [|n names IH]; simpl.
  - split; [done|]. by intros ?%elem_of_nil.
  - rewrite orb_true_iff, elem_of_cons, IH, same_name_true. done.
Qed.

Lemma has_name_false c names : has_name c names = false ↔ upper c ∉ upper <$> names.
Proof.
  rewrite <- has_name_upper. by destruct (has_name c names).
Qed.

Lemma index_of_lookup c names i :
  NoDup (upper <$> names) → names !! i = Some c → index_of c names = Some i.
Proof.
  revert i. induction names as [|n names IH]; intros i Hnd Hi; [done|].
  simpl in Hnd. apply NoDup_cons in Hnd as [Hn Hnd]. simpl.
  destruct i as [|j]; simpl in Hi.
  - injection Hi as ->. by rewrite same_name_refl.
  - destruct (same_name n c) eqn:E.
    + exfalso. apply Hn. apply same_name_true in E. rewrite E.
      apply list_elem_of_fmap. exists c. split; [done|].
      by eapply list_elem_of_lookup_2.
    + by rewrite (IH j).
Qed.

Lemma index_of_app c names more i :
  index_of c names = Some i → index_of c (names ++ more) = Some i.
Proof.
  revert i. induction names as [|n names IH]; intros i; [done|]. simpl.
  destruct (same_name n c); [done|].
  destruct (index_of c names) as [j|]; [|done]. simpl.
  intros [= <-]. by rewrite (IH j).
Qed.

Lemma index_of_appended c names :
  has_name c names = false → index_of c (names ++ [c]) = Some (length names).
Proof.
  unfold has_name. induction names as [|n names IH]; simpl.
  - by rewrite same_name_refl.
  - intros [Hn Hrest]%orb_false_elim. rewrite (same_name_sym n c), Hn.
    by rewrite IH.
Qed.

(** Reading column [k] of a row that was built column by column. *)
Lemma cell_fmap (f : string → Value) names k :
  NoDup (upper <$> names) → k ∈ names → cell names (f <$> names) k = f k.
Proof.
  intros Hnd [i Hi]%list_elem_of_lookup. unfold cell.
  rewrite (index_of_lookup k names i) by done.
  by rewrite list_lookup_fmap, Hi.
Qed.

Lemma cells_restore names more (r more' : list Value) :
  NoDup (upper <$> names) → length r = length names →
  (λ k, cell (names ++ more) (r ++ more') k) <$> names = r.
Proof.
  intros Hnd Hlen. apply list_eq. intros i. rewrite list_lookup_fmap.
  destruct (names !! i) as [k|] eqn:Hi; simpl.
  - unfold cell. rewrite (index_of_app k names more i)
      by (by apply index_of_lookup).
    apply lookup_lt_Some in Hi as Hlt.
    rewrite lookup_app_l by lia.
    destruct (lookup_lt_is_Some_2 r i) as [x Hx]; [lia|]. by rewrite Hx.
  - apply lookup_ge_None in Hi. symmetry. apply lookup_ge_None. lia.
Qed.

Lemma collect_columns_filter res c acc :
  collect_columns res c acc = acc ++ filter (λ col, col.1 ≠ c) res.
Proof.
  revert acc. induction res as [|[n ty] res IH]; intros acc; simpl.
  - by rewrite app_nil_r.
  - destruct (String.eqb_spec n c) as [->|Hne]; simpl.
    + rewrite IH. rewrite filter_cons_False; [done | simpl; tauto].
    + rewrite IH, filter_cons_True by done. by rewrite <- app_assoc.
Qed.

Lemma surviving_names tb c k :
  k ∈ (surviving tb c).*1 ↔ k ∈ column_names tb ∧ k ≠ c.
Proof.
  unfold surviving, column_names. rewrite !list_elem_of_fmap. split.
  - intros [col [-> [Hne Hin]%list_elem_of_filter]]. eauto.
  - intros [[col [-> Hin]] Hne]. exists col. split; [done|].
    apply list_elem_of_filter. done.
Qed.

Lemma surviving_sublist tb c : sublist (surviving tb c) (columns tb).
Proof. unfold surviving. apply sublist_filter. Qed.

Lemma surviving_NoDup tb c :
  NoDup (upper <$> column_names tb) → NoDup (upper <$> (surviving tb c).*1).
Proof.
  intros Hnd. eapply sublist_NoDup; [exact Hnd|].
  unfold column_names. apply fmap_sublist, fmap_sublist, surviving_sublist.
Qed.

Lemma surviving_length tb c : (length (surviving tb c) ≤ length (columns tb))%nat.
Proof. apply sublist_length, surviving_sublist. Qed.

Lemma surviving_plain tb c :
  Forall (λ col, plain_column col = true) (columns tb) →
  Forall (λ col, plain_column col = true) (surviving tb c).
Proof.
  rewrite !Forall_forall. intros H col [_ Hin]%list_elem_of_filter. by apply H.
Qed.

Lemma surviving_absent tb c :
  c ∉ column_names tb → surviving tb c = columns tb.
Proof.
  unfold surviving, column_names. induction (columns tb) as [|[n ty] cols IH]; [done|].
  simpl. intros [Hne Hnin]%not_elem_of_cons.
  rewrite filter_cons_True by (simpl; congruence). by rewrite IH.
Qed.

(** Cutting a column that is there leaves fewer columns. *)
Lemma surviving_shorter tb c :
  c ∈ column_names tb → (length (surviving tb c) < length (columns tb))%nat.
Proof.
  unfold surviving, column_names. induction (columns tb) as [|[n ty] cols IH].
  - by intros ?%elem_of_nil.
  - simpl. intros [->|Hin]%elem_of_cons.
    + rewrite filter_cons_False by (simpl; tauto).
      pose proof (length_filter (λ col : string * string, col.1 ≠ n) cols). lia.
    + destruct (decide (n = c)) as [->|Hne].
      * rewrite filter_cons_False by (simpl; tauto).
        pose proof (length_filter (λ col : string * string, col.1 ≠ c) cols). lia.
      * rewrite filter_cons_True by done. simpl. specialize (IH Hin). lia.
Qed.

(** ** The statements, one by one *)

Lemma forallb_Forall {A} (f : A → bool) (l : list A) :
  Forall (λ x, f x = true) l → forallb f l = true.
Proof. induction 1 as [|x l Hx _ IH]; [done|]. simpl. by rewrite Hx, IH. Qed.

Lemma exec_create_table t cols (d : Database) :
  plain_name t = true → Forall (λ col, plain_column col = true) cols →
  cols ≠ [] → (length cols ≤ max_columns)%nat → NoDup (upper <$> cols.*1) →
  lookup_table t d = None →
  query_exec (CreateTable t cols) d = (true, d ++ [(t, mkTable cols [] [])]).
Proof.
  intros Ht Hcols Hne Hlen Hnd Hfree. unfold query_exec, engine, well_spelled.
  rewrite Ht, forallb_Forall by done. simpl.
  rewrite bool_decide_eq_false_2 by done.
  rewrite bool_decide_eq_true_2 by done. by rewrite Hfree.
Qed.

Lemma exec_create_no_columns t (d : Database) :
  query_exec (CreateTable t []) d = (false, d).
Proof. unfold query_exec, engine. by destruct (negb _). Qed.

Lemma exec_insert_no_columns dst src (d : Database) :
  query_exec (InsertIntoSelect dst [] src) d = (false, d).
Proof. unfold query_exec, engine. by destruct (negb _). Qed.

Lemma exec_insert_select dst cols src (d : Database) x s :
  plain_name dst = true → Forall (λ c, plain_name c = true) cols →
  plain_name src = true → cols ≠ [] →
  lookup_table dst d = Some x → lookup_table src d = Some s →
  Forall (λ c, has_name c (column_names x) = true ∧ has_name c (column_names s) = true)
    cols →
  query_exec (InsertIntoSelect dst cols src) d
  = (true, alter_table
             (λ tb, mkTable (columns tb) (constraints tb)
                      (rows tb ++ (copied_row (column_names x) cols (column_names s)
                                     <$> rows s)))
             dst d).
Proof.
  intros Hdst Hcols Hsrc Hne Hx Hs Hin. unfold query_exec, engine, well_spelled.
  rewrite Hdst, Hsrc, forallb_Forall by done. simpl.
  rewrite bool_decide_eq_false_2 by done. rewrite Hx, Hs. simpl.
  rewrite forallb_Forall; [done|].
  eapply Forall_impl; [exact Hin|]. intros c [-> ->]. done.
Qed.

Lemma exec_drop_table t (d : Database) tb :
  plain_name t = true → lookup_table t d = Some tb →
  query_exec (DropTable t) d = (true, drop_table t d).
Proof.
  intros Ht Htb. unfold query_exec, engine, well_spelled. rewrite Ht. simpl.
  by rewrite Htb.
Qed.

Lemma exec_drop_missing t (d : Database) :
  lookup_table t d = None → query_exec (DropTable t) d = (false, d).
Proof.
  intros Htb. unfold query_exec, engine. destruct (negb _); [done|]. by rewrite Htb.
Qed.

Lemma exec_rename t n (d : Database) tb :
  plain_name t = true → plain_name n = true →
  lookup_table t d = Some tb → lookup_table n d = None →
  query_exec (AlterTableRenameTo t n) d = (true, rename_table t n d).
Proof.
  intros Ht Hn Htb Hfree. unfold query_exec, engine, well_spelled.
  rewrite Ht, Hn. simpl. by rewrite Htb, Hfree.
Qed.

Lemma exec_rename_missing t n (d : Database) :
  lookup_table t d = None → query_exec (AlterTableRenameTo t n) d = (false, d).
Proof.
  intros Htb. unfold query_exec, engine. destruct (negb _); [done|]. by rewrite Htb.
Qed.

Lemma exec_not_spelled st (d : Database) :
  well_spelled st = false → query_exec st d = (false, d).
Proof. intros H. unfold query_exec, engine. by rewrite H. Qed.

Lemma add_column_accepted (d : Database) t c tb :
  plain_name t = true → plain_name c = true →
  lookup_table t d = Some tb → has_name c (column_names tb) = false →
  (length (columns tb) < max_columns)%nat →
  query_exec (add_column_statement t c) d
  = (true, alter_table
             (λ tb, mkTable (columns tb ++ [(c, "TEXT")]) (constraints tb)
                      ((λ r, r ++ [VNull]) <$> rows tb))
             t d).
Proof.
  intros Ht Hc Htb Hnew Hlen.
  unfold query_exec, add_column_statement, engine, well_spelled.
  rewrite Ht, Hc. simpl. rewrite Htb. simpl. rewrite Hnew.
  rewrite bool_decide_eq_false_2 by lia. done.
Qed.

Lemma add_column_rejected (d : Database) t c tb :
  lookup_table t d = Some tb → has_name c (column_names tb) = true →
  query_exec (add_column_statement t c) d = (false, d).
Proof.
  intros Htb Hc. unfold query_exec, add_column_statement, engine.
  destruct (negb _); [done|]. rewrite Htb. simpl. by rewrite Hc.
Qed.

Lemma add_column_missing (d : Database) t c :
  lookup_table t d = None → query_exec (add_column_statement t c) d = (false, d).
Proof.
  intros Htb. unfold query_exec, add_column_statement, engine.
  destruct (negb _); [done|]. by rewrite Htb.
Qed.

(** ** The rebuild *)

Lemma delete_column_statements_steps t c (d : Database) :
  (delete_column_statements t c d).2
  = let cols := collect_columns (table_info d t) c [] in
    let d1 := (query_exec (CreateTable (temp_name t) cols) d).2 in
    let d2 := (query_exec (InsertIntoSelect (temp_name t) cols.*1 t) d1).2 in
    let d3 := (query_exec (DropTable t) d2).2 in
    (query_exec (AlterTableRenameTo (temp_name t) t) d3).2.
Proof.
  unfold delete_column_statements, mbind, Sql_bind, sql_bind, pragma_columns,
    mret, Sql_ret, sql_ret. cbv zeta.
  destruct (query_exec (CreateTable _ _) d) as [b1 d1]. simpl.
  destruct (query_exec (InsertIntoSelect _ _ _) d1) as [b2 d2]. simpl.
  destruct (query_exec (DropTable _) d2) as [b3 d3]. simpl.
  by destruct (query_exec (AlterTableRenameTo _ _) d3) as [b4 d4].
Qed.

Lemma DeleteColumnCommand_redo_statements t c s :
  DeleteColumnCommand_redo t c s = on_connection (delete_column_statements t c) s.
Proof. reflexivity. Qed.

Lemma AddColumnCommand_undo_statements t c s :
  AddColumnCommand_undo t c s = on_connection (delete_column_statements t c) s.
Proof. reflexivity. Qed.

Lemma table_info_found (d : Database) t tb :
  plain_name t = true → lookup_table t d = Some tb → table_info d t = columns tb.
Proof. intros Ht Htb. unfold table_info. by rewrite Ht, Htb. Qed.

Lemma table_info_missing (d : Database) t :
  lookup_table t d = None → table_info d t = [].
Proof. intros Htb. unfold table_info. rewrite Htb. by destruct (plain_name t). Qed.

Lemma plain_column_name col : plain_column col = true → plain_name col.1 = true.
Proof. by intros [? _]%andb_true_iff. Qed.

(** The row copied into a table that has the listed columns and no
    other. *)
Lemma copied_row_listed cols src_names r :
  copied_row cols cols src_names r = (λ k, cell src_names r k) <$> cols.
Proof.
  unfold copied_row. apply list_fmap_ext. intros i k Hk.
  rewrite has_name_elem; [done|]. by eapply list_elem_of_lookup_2.
Qed.

(** The five steps when another column survives and no table has the
    temporary name: the table is replaced by its cut, which stands last
    in the database; nothing else moves. *)
Lemma rebuild_result (d : Database) t c tb :
  plain_name t = true →
  lookup_table t d = Some tb →
  lookup_table (temp_name t) d = None →
  Forall (λ col, plain_column col = true) (columns tb) →
  NoDup (upper <$> column_names tb) →
  (length (columns tb) ≤ max_columns)%nat →
  surviving tb c ≠ [] →
  (delete_column_statements t c d).2 = moved_last t (without_column tb c) d.
Proof.
  intros Ht Htb Htmp Hplain Hnd Hlen Hne.
  pose proof (temp_name_other t) as Hother.
  pose proof (plain_temp_name t Ht) as Hptmp.
  rewrite delete_column_statements_steps. cbv zeta.
  rewrite (table_info_found d t tb), collect_columns_filter by done. simpl.
  fold (surviving tb c).
  rewrite exec_create_table; try done; cycle 1.
  { by apply surviving_plain. }
  { pose proof (surviving_length tb c). lia. }
  { by apply surviving_NoDup. }
  simpl.
  rewrite (exec_insert_select _ _ _ _ (mkTable (surviving tb c) [] []) tb);
    try done; cycle 1.
  { apply Forall_fmap. eapply Forall_impl; [by apply surviving_plain|].
    intros col. apply plain_column_name. }
  { by destruct (surviving tb c). }
  { rewrite lookup_table_last by done. by rewrite same_name_refl. }
  { by apply lookup_table_found. }
  { apply Forall_forall. intros k Hk. split; [by apply has_name_elem|].
    apply has_name_elem. by apply surviving_names in Hk as [? _]. }
  simpl. rewrite alter_table_last by (done || apply same_name_refl).
  rewrite (exec_drop_table _ _ tb) by (done || by apply lookup_table_found).
  simpl. rewrite drop_table_last_ne by done.
  rewrite (exec_rename _ _ _ (mkTable (surviving tb c) [] ([] ++
             (copied_row (surviving tb c).*1 (surviving tb c).*1 (column_names tb)
                <$> rows tb)))); try done; cycle 1.
  { rewrite lookup_table_last; [by rewrite same_name_refl|].
    rewrite lookup_drop_ne by done. done. }
  { rewrite lookup_table_last by apply lookup_drop_eq. by rewrite Hother. }
  simpl. rewrite rename_table_last; cycle 1.
  { rewrite lookup_drop_ne by done. done. }
  { apply same_name_refl. }
  unfold moved_last, without_column. do 4 f_equal. unfold column_names; simpl.
  apply list_fmap_ext. intros i r _. apply copied_row_listed.
Qed.

(** The five steps when no other column survives: the [CREATE] with no
    column is rejected and the table is dropped; nothing takes its
    place. *)
Lemma rebuild_last_column (d : Database) t c tb :
  plain_name t = true →
  lookup_table t d = Some tb → lookup_table (temp_name t) d = None →
  surviving tb c = [] →
  (delete_column_statements t c d).2 = drop_table t d.
Proof.
  intros Ht Htb Htmp Hnil.
  rewrite delete_column_statements_steps. cbv zeta.
  rewrite (table_info_found d t tb), collect_columns_filter by done. simpl.
  fold (surviving tb c). rewrite Hnil. simpl.
  rewrite exec_create_no_columns, exec_insert_no_columns. simpl.
  rewrite (exec_drop_table _ _ tb) by done. simpl.
  rewrite exec_rename_missing; [done|].
  rewrite lookup_drop_ne by apply temp_name_other. done.
Qed.

(** The five steps for a table that is not there. *)
Lemma rebuild_missing_table (d : Database) t c :
  lookup_table t d = None → lookup_table (temp_name t) d = None →
  (delete_column_statements t c d).2 = d.
Proof.
  intros Ht Htmp.
  rewrite delete_column_statements_steps. cbv zeta.
  rewrite table_info_missing by done. simpl.
  rewrite exec_create_no_columns, exec_insert_no_columns. simpl.
  rewrite exec_drop_missing by done. simpl.
  by rewrite exec_rename_missing.
Qed.

Ltac by_evaluation := apply (bool_decide_unpack _); vm_compute; exact I.

(** Every table of a database of plain tables is a plain table. *)
Lemma plain_database_lookup (d : Database) t tb :
  plain_database d → lookup_table t d = Some tb → plain_table tb.
Proof.
  intros Hd [n [Hin _]]%lookup_table_Some_elem.
  unfold plain_database in Hd. rewrite Forall_forall in Hd. exact (Hd _ Hin).
Qed.

Ltac plain_by_evaluation :=
  unfold plain_database, plain_table, full_rows; by_evaluation.

Lemma column_names_without tb c : column_names (without_column tb c) = (surviving tb c).*1.
Proof. reflexivity. Qed.

(** A plain table keeps being one when a column is cut and another
    survives. *)
Lemma without_column_plain tb c :
  plain_table tb → surviving tb c ≠ [] → plain_table (without_column tb c).
Proof.
  intros (Hcons & Hplain & Hnd & Hcols & Hlen & Hfull) Hne.
  split; [done|]. split; [by apply surviving_plain|].
  split; [by apply surviving_NoDup|]. split; [done|]. split.
  - simpl. pose proof (surviving_length tb c). lia.
  - unfold full_rows, without_column; simpl. apply Forall_fmap, Forall_forall.
    intros r _. simpl. by rewrite !length_fmap.
Qed.

(** Cutting a column the table does not have gives the table back. *)
Lemma without_column_absent tb c :
  plain_table tb → c ∉ column_names tb → without_column tb c = tb.
Proof.
  intros (Hcons & Hplain & Hnd & Hcols & Hlen & Hfull) Hc.
  unfold without_column. rewrite surviving_absent by done.
  destruct tb as [cols cons rws]. simpl in *. subst cons. f_equal.
  unfold full_rows, column_names in *; simpl in *.
  induction Hfull as [|r rws Hr _ IH]; [done|]. simpl. f_equal; [|done].
  pose proof (cells_restore (cols.*1) [] r [] Hnd) as Hres.
  rewrite !app_nil_r in Hres. apply Hres. by rewrite length_fmap.
Qed.

Lemma lookup_moved_last t tb (d : Database) :
  lookup_table t (moved_last t tb d) = Some tb.
Proof.
  unfold moved_last. rewrite lookup_table_last by apply lookup_drop_eq.
  by rewrite same_name_refl.
Qed.

Lemma lookup_moved_last_ne t u tb (d : Database) :
  same_name u t = false → lookup_table u (moved_last t tb d) = lookup_table u d.
Proof.
  intros Hut. unfold moved_last. rewrite lookup_table_app, lookup_drop_ne by done.
  destruct (lookup_table u d); [done|]. simpl.
  by rewrite (same_name_sym t u), Hut.
Qed.

Lemma moved_last_again t tb tb' (d : Database) :
  moved_last t tb' (moved_last t tb d) = moved_last t tb' d.
Proof.
  unfold moved_last. rewrite drop_table_last_eq by apply same_name_refl.
  by rewrite drop_table_twice.
Qed.

(** The five steps for a column the table does not have: every statement
    is accepted and the table is rebuilt with all its columns and rows. *)
Lemma rebuild_absent (d : Database) t c tb :
  plain_name t = true →
  lookup_table t d = Some tb → lookup_table (temp_name t) d = None →
  plain_table tb → c ∉ column_names tb →
  (delete_column_statements t c d).2 = moved_last t tb d.
Proof.
  intros Ht Htb Htmp Hpl Hc. pose proof Hpl as (Hcons & Hplain & Hnd & Hcols & Hlen & _).
  rewrite (rebuild_result d t c tb) by (rewrite ?surviving_absent; done).
  by rewrite without_column_absent.
Qed.

(** The rebuild of a table that was just rebuilt, as pushing the command
    does: the table stays last and as it is. *)
Lemma rebuild_again (d : Database) t c tb :
  plain_name t = true →
  lookup_table (temp_name t) d = None →
  plain_table tb → c ∉ column_names tb →
  (delete_column_statements t c (moved_last t tb d)).2 = moved_last t tb d.
Proof.
  intros Ht Htmp Hpl Hc.
  rewrite (rebuild_absent _ t c tb); try done.
  - apply moved_last_again.
  - apply lookup_moved_last.
  - rewrite lookup_moved_last_ne by apply temp_name_other. done.
Qed.

Lemma column_values_moved_last (d : Database) t tb k :
  has_name k (column_names tb) = true →
  column_values (moved_last t tb d) t k
  = Some ((λ r, cell (column_names tb) r k) <$> rows tb).
Proof.
  intros Hk. unfold column_values. rewrite lookup_moved_last. simpl. by rewrite Hk.
Qed.

Lemma column_values_without (d : Database) t tb c k :
  lookup_table t d = Some tb → NoDup (upper <$> column_names tb) →
  k ∈ column_names tb → k ≠ c →
  column_values (moved_last t (without_column tb c) d) t k = column_values d t k.
Proof.
  intros Ht Hnd Hk Hkc.
  assert (k ∈ (surviving tb c).*1) as Hs by (by apply surviving_names).
  rewrite column_values_moved_last by (by apply has_name_elem).
  unfold column_values. rewrite Ht. simpl. rewrite has_name_elem by done.
  f_equal. unfold without_column; simpl. rewrite <- list_fmap_compose.
  apply list_fmap_ext. intros i r _. simpl.
  unfold column_names at 1; simpl. rewrite cell_fmap; [done| |done].
  by apply surviving_NoDup.
Qed.

Lemma surviving_not_nil tb c k :
  k ∈ column_names tb → k ≠ c → surviving tb c ≠ [].
Proof.
  intros Hk Hkc Hnil.
  assert (k ∈ (surviving tb c).*1) as Hin by (by apply surviving_names).
  rewrite Hnil in Hin. by apply elem_of_nil in Hin.
Qed.




(** ** Cutting a column that is not there, or that was just added *)

Lemma plain_not_empty t : plain_name t = true → t ≠ EmptyString.
Proof. by intros H ->. Qed.

Lemma drop_alter_table f t (d : Database) :
  drop_table t (alter_table f t d) = drop_table t d.
Proof.
  unfold drop_table, alter_table. induction d as [|[n tb] d IH]; [done|]. csimpl.
  destruct (same_name n t) eqn:E.
  - rewrite !filter_cons_False by (simpl; congruence). done.
  - rewrite !filter_cons_True by done. by rewrite IH.
Qed.

Lemma alter_moved_last f t tb (d : Database) :
  alter_table f t (moved_last t tb d) = moved_last t (f tb) d.
Proof.
  unfold moved_last. apply alter_table_last; [apply lookup_drop_eq | apply same_name_refl].
Qed.

Lemma moved_last_alter f t tb (d : Database) :
  moved_last t tb (alter_table f t d) = moved_last t tb d.
Proof. unfold moved_last. by rewrite drop_alter_table. Qed.

Lemma column_names_with_null tb c :
  column_names (with_null_column tb c) = column_names tb ++ [c].
Proof. unfold column_names, with_null_column; simpl. by rewrite fmap_app. Qed.

Lemma absent_exactly c names : has_name c names = false → c ∉ names.
Proof.
  intros H Hin. apply has_name_elem in Hin. congruence.
Qed.

Lemma without_column_appended tb c :
  plain_table tb → has_name c (column_names tb) = false →
  without_column (with_null_column tb c) c = tb.
Proof.
  intros (Hcons & Hplain & Hnd & Hcols & Hlen & Hfull) Hnew.
  apply absent_exactly in Hnew as Hc.
  unfold without_column, with_null_column, surviving; simpl.
  rewrite filter_app, filter_cons_False, filter_nil, app_nil_r by (simpl; tauto).
  fold (surviving tb c). rewrite surviving_absent by done.
  destruct tb as [cols cons rws]. simpl in *. subst cons. f_equal.
  unfold full_rows, column_names in *; simpl in *.
  rewrite fmap_app; simpl. rewrite <- list_fmap_compose.
  induction Hfull as [|r rws Hr _ IH]; [done|]. simpl. f_equal; [|done].
  apply cells_restore; [done|]. by rewrite length_fmap.
Qed.

Lemma with_null_upper_NoDup tb c :
  NoDup (upper <$> column_names tb) → has_name c (column_names tb) = false →
  NoDup (upper <$> column_names (with_null_column tb c)).
Proof.
  intros Hnd Hnew. rewrite column_names_with_null, fmap_app. simpl.
  apply NoDup_app. split; [done|]. split; [|apply NoDup_singleton].
  intros u Hu ->%list_elem_of_singleton. by apply has_name_false in Hnew.
Qed.

Lemma text_column_plain c : plain_name c = true → plain_column (c, "TEXT") = true.
Proof. intros H. unfold plain_column. simpl. by rewrite H. Qed.

(** The rebuild right after the column was appended. *)
Lemma rebuild_appended (d : Database) t x tb :
  plain_name t = true → plain_name x = true →
  lookup_table t d = Some tb → plain_table tb →
  (length (columns tb) < max_columns)%nat →
  has_name x (column_names tb) = false →
  lookup_table (temp_name t) d = None →
  (delete_column_statements t x
     (alter_table (λ tb, with_null_column tb x) t d)).2
  = moved_last t tb d.
Proof.
  intros Ht Hx Htb Hpl Hlen Hnew Htmp.
  pose proof Hpl as (Hcons & Hplain & Hnd & Hcols & _ & Hfull).
  rewrite (rebuild_result _ t x (with_null_column tb x)).
  - rewrite without_column_appended by done. apply moved_last_alter.
  - done.
  - by rewrite lookup_alter_eq, Htb.
  - rewrite lookup_alter_ne by apply temp_name_other. done.
  - simpl. apply Forall_app. split; [done|]. apply Forall_singleton.
    by apply text_column_plain.
  - by apply with_null_upper_NoDup.
  - simpl. rewrite length_app. simpl. lia.
  - intros Hnil.
    assert (columns (without_column (with_null_column tb x) x) = []) as Hc by exact Hnil.
    rewrite without_column_appended in Hc by done. done.
Qed.

(** ** The handlers *)

(** What [delete_column] does once the user has picked a header and
    confirmed: the five steps run, then run again when the command is
    pushed; success is reported whatever the engine answered. *)
Lemma delete_column_confirmed v choice d t c m mo :
  db (store v) = Some d →
  currentText v = t → t ≠ EmptyString →
  model v = Some m → models (store v) !! m = Some mo →
  headers mo !! choice = Some c → c ≠ EmptyString →
  let d1 := (delete_column_statements t c d).2 in
  ∃ v', delete_column choice true true v = Some v'
    ∧ db (store v') = Some (delete_column_statements t c d1).2
    ∧ models (store v') = models (store v) ++ [select_table d1 t]
    ∧ model v' = Some (length (models (store v)))
    ∧ table_view v' = Some (length (models (store v)))
    ∧ dialogs v' = dialogs v
    ∧ status_bar v' = "Column " +:+ c +:+ " deleted"
    ∧ undo_stack v'
      = mkStack (take (index (undo_stack v)) (command_list (undo_stack v))
                 ++ [DeleteColumnCommand t c])
          (S (index (undo_stack v)))
    ∧ query_history v' = query_history v
    ∧ combo_items v' = combo_items v
    ∧ combo_index v' = combo_index v.
Proof.
  intros Hdb Ht Hne Hm Hmo Hc Hcne d1.
  unfold delete_column. rewrite Hdb, Ht, Hm. simpl. rewrite Hmo. simpl.
  rewrite bool_decide_eq_false_2 by done.
  rewrite Hc. simpl. rewrite bool_decide_eq_false_2 by done. simpl.
  unfold display_table. rewrite bool_decide_eq_false_2 by done. simpl.
  eexists. split; [reflexivity|]. simpl. repeat split; done.
Qed.

(** What [add_column] does when the engine accepts the new column: the
    table gains it, a fresh model shows it, and the pushed command's
    second [ALTER TABLE] is rejected and changes nothing. *)
Lemma add_column_confirmed v d t x tb :
  db (store v) = Some d →
  currentText v = t → plain_name t = true → plain_name x = true →
  lookup_table t d = Some tb → has_name x (column_names tb) = false →
  (length (columns tb) < max_columns)%nat →
  let d1 := alter_table (λ tb, with_null_column tb x) t d in
  ∃ v1, add_column x true v = Some v1
    ∧ store v1 = mkStore (Some d1) (models (store v) ++ [select_table d1 t])
    ∧ currentText v1 = t
    ∧ model v1 = Some (length (models (store v)))
    ∧ table_view v1 = Some (length (models (store v)))
    ∧ dialogs v1 = dialogs v
    ∧ status_bar v1 = "Column " +:+ x +:+ " added"
    ∧ undo_stack v1
      = mkStack (take (index (undo_stack v)) (command_list (undo_stack v))
                 ++ [AddColumnCommand t x])
          (S (index (undo_stack v)))
    ∧ query_history v1 = query_history v
    ∧ combo_items v1 = combo_items v.
Proof.
  intros Hdb Ht Hpt Hpx Htb Hnew Hlen d1.
  pose proof (plain_not_empty t Hpt) as Hne.
  pose proof (plain_not_empty x Hpx) as Hxne.
  unfold add_column. rewrite Hdb, Ht.
  rewrite bool_decide_eq_false_2 by done.
  rewrite bool_decide_eq_false_2 by done. simpl.
  rewrite (add_column_accepted d t x tb) by done.
  change (alter_table _ t d) with d1.
  unfold display_table. rewrite bool_decide_eq_false_2 by done. simpl.
  unfold push, QUndoStack_push; simpl.
  unfold AddColumnCommand_redo, on_connection; simpl.
  unfold mbind at 1, Sql_bind, sql_bind; simpl.
  rewrite (add_column_rejected d1 t x (with_null_column tb x)); cycle 1.
  { subst d1. by rewrite lookup_alter_eq, Htb. }
  { rewrite column_names_with_null. apply has_name_elem.
    rewrite elem_of_app, list_elem_of_singleton. auto. }
  simpl. eexists. split; [reflexivity|]. simpl. repeat split; done.
Qed.

Lemma select_table_headers (d : Database) t tb :
  lookup_table t d = Some tb → headers (select_table d t) = column_names tb.
Proof. intros H. unfold select_table. by rewrite H. Qed.




(** ** Undoing a dropped column *)

Lemma upper_injective_on names a b :
  NoDup (upper <$> names) → a ∈ names → b ∈ names → upper a = upper b → a = b.
Proof.
  induction names as [|n names IH]; [by intros _ ?%elem_of_nil|].
  simpl. intros [Hn Hnd]%NoDup_cons Ha Hb Hab.
  apply elem_of_cons in Ha as [->|Ha]; apply elem_of_cons in Hb as [->|Hb]; try done.
  - exfalso. apply Hn. rewrite Hab. apply list_elem_of_fmap. by exists b.
  - exfalso. apply Hn. rewrite <- Hab. apply list_elem_of_fmap. by exists a.
  - by apply IH.
Qed.

(** Once cut, a column is absent under any spelling. *)
Lemma cut_column_gone tb c :
  NoDup (upper <$> column_names tb) → c ∈ column_names tb →
  has_name c (surviving tb c).*1 = false.
Proof.
  intros Hnd Hc. apply has_name_false.
  intros [k [Hck [Hk Hkc]%surviving_names]]%list_elem_of_fmap.
  apply Hkc. symmetry. by eapply upper_injective_on.
Qed.

Lemma plain_column_of tb c :
  Forall (λ col, plain_column col = true) (columns tb) → c ∈ column_names tb →
  plain_name c = true.
Proof.
  intros Hplain [col [-> Hin]]%list_elem_of_fmap.
  apply plain_column_name. by eapply Forall_forall in Hplain.
Qed.

Lemma null_column_values (d : Database) t c tb :
  has_name c (surviving tb c).*1 = false →
  column_values (moved_last t (with_null_column (without_column tb c) c) d) t c
  = Some (replicate (length (rows tb)) VNull).
Proof.
  intros Hc. rewrite column_values_moved_last; cycle 1.
  { rewrite column_names_with_null. apply has_name_elem.
    rewrite elem_of_app, list_elem_of_singleton. auto. }
  f_equal. rewrite column_names_with_null.
  unfold with_null_column, without_column, column_names; simpl.
  rewrite <- !list_fmap_compose.
  induction (rows tb) as [|r rws IH]; [done|]. simpl. f_equal; [|done].
  unfold cell. rewrite index_of_appended by done.
  rewrite lookup_app_r by (by rewrite !length_fmap).
  by rewrite !length_fmap, Nat.sub_diag.
Qed.

(** The rebuild followed by the [ALTER TABLE] that adds the column
    again. *)
Lemma rebuild_then_add (d : Database) t c k tb :
  plain_name t = true → lookup_table t d = Some tb → plain_table tb →
  lookup_table (temp_name t) d = None →
  c ∈ column_names tb → k ∈ column_names tb → k ≠ c →
  query_exec (add_column_statement t c) (delete_column_statements t c d).2
  = (true, moved_last t (with_null_column (without_column tb c) c) d).
Proof.
  intros Hpt Ht (Hcons & Hplain & Hnd & Hcols & Hlen & Hfull) Htmp Hc Hk Hkc.
  assert (surviving tb c ≠ []) as Hne by (by eapply surviving_not_nil).
  rewrite (rebuild_result d t c tb) by done.
  rewrite (add_column_accepted _ t c (without_column tb c)).
  - by rewrite alter_moved_last.
  - done.
  - by eapply plain_column_of.
  - apply lookup_moved_last.
  - by apply cut_column_gone.
  - simpl. pose proof (surviving_shorter tb c Hc). lia.
Qed.




(** ** Failures inside the drop-column sequence *)

(** C3, the code at a failing input: deleting the only column of a table.
    The [CREATE TABLE] with an empty column list is rejected, and so are
    the copy and the rename; the [DROP TABLE] is accepted.  The handler
    shows no message box, reports the column as deleted and pushes the
    command; the table is gone. *)
Lemma delete_only_column_reports_success :
  query_exec (CreateTable (temp_name "t") []) ids_db = (false, ids_db)
  ∧ dialogs <$> delete_column 0 true true (window ids_db "t") = Some []
  ∧ status_bar <$> delete_column 0 true true (window ids_db "t")
    = Some "Column id deleted"
  ∧ (command_list ∘ undo_stack) <$> delete_column 0 true true (window ids_db "t")
    = Some [DeleteColumnCommand "t" "id"]
  ∧ (delete_column 0 true true (window ids_db "t") ≫= table_of "t") = None.
Proof.
  split; [vm_compute; reflexivity|]. split; [vm_compute; reflexivity|].
  split; [vm_compute; reflexivity|]. split; vm_compute; reflexivity.
Qed.

(** Whatever the engine answers to the five statements, a confirmed
    [delete_column] shows no message box and reports success. *)
Lemma delete_column_never_reports_failure v choice d t c m mo :
  db (store v) = Some d →
  currentText v = t → t ≠ EmptyString →
  model v = Some m → models (store v) !! m = Some mo →
  headers mo !! choice = Some c → c ≠ EmptyString →
  ∃ v', delete_column choice true true v = Some v'
    ∧ dialogs v' = dialogs v
    ∧ status_bar v' = "Column " +:+ c +:+ " deleted".
Proof.
  intros Hdb Ht Hne Hm Hmo Hc Hcne.
  destruct (delete_column_confirmed v choice d t c m mo)
    as (v' & ? & _ & _ & _ & _ & ? & ? & _); eauto.
Qed.

(** ** Dropping a column the table does not have *)




(** ** The undo stack *)

(** The index never leaves the command list. *)
Lemma QUndoStack_index_bound {Cmd World : Type} (cmd_redo cmd_undo : Cmd → World → World)
    (s : UndoStack Cmd * World) (cmd : Cmd) :
  (index s.1 ≤ length (command_list s.1))%nat →
  (index (QUndoStack_push cmd_redo cmd s).1
     ≤ length (command_list (QUndoStack_push cmd_redo cmd s).1))%nat
  ∧ (index (QUndoStack_undo cmd_undo s).1
     ≤ length (command_list (QUndoStack_undo cmd_undo s).1))%nat
  ∧ (index (QUndoStack_redo cmd_redo s).1
     ≤ length (command_list (QUndoStack_redo cmd_redo s).1))%nat.
Proof.
  destruct s as [[cmds i] w]; simpl. intros Hle. split; [|split].
  - rewrite length_app, length_take. simpl. lia.
  - unfold QUndoStack_undo; simpl. case_bool_decide; simpl; [lia|].
    destruct (cmds !! (i - 1)); simpl; lia.
  - unfold QUndoStack_redo; simpl. case_bool_decide; simpl; [lia|].
    destruct (cmds !! i) eqn:Hi; simpl; [|lia].
    apply lookup_lt_Some in Hi. lia.
Qed.

(** A redo right after a push finds the index at the end. *)
Lemma QUndoStack_redo_after_push {Cmd World : Type} (cmd_redo : Cmd → World → World)
    (cmds : list Cmd) (i : nat) (w : World) (cmd : Cmd) :
  (i ≤ length cmds)%nat →
  QUndoStack_redo cmd_redo (QUndoStack_push cmd_redo cmd (mkStack cmds i, w))
  = QUndoStack_push cmd_redo cmd (mkStack cmds i, w).
Proof.
  intros Hle. unfold QUndoStack_redo, QUndoStack_push; simpl.
  rewrite bool_decide_eq_true_2; [done|].
  rewrite length_app, length_take. simpl. lia.
Qed.

(** C8: the command log is a linear undo stack.  A push keeps the
    commands left of the index, drops the ones from the index on, and
    puts the new command last with the index behind it, so that a redo
    right after a push does nothing (and an undo reverses the pushed
    command); undo does nothing at index 0; redo does nothing when the
    index is at the end. *)
Theorem undo_stack_is_linear {Cmd World : Type} (cmd_redo cmd_undo : Cmd → World → World)
    (cmds : list Cmd) (i : nat) (w : World) (cmd : Cmd) :
  (i ≤ length cmds)%nat →
  let pushed := QUndoStack_push cmd_redo cmd (mkStack cmds i, w) in
  pushed = (mkStack (take i cmds ++ [cmd]) (S i), cmd_redo cmd w)
  ∧ QUndoStack_redo cmd_redo pushed = pushed
  ∧ QUndoStack_undo cmd_undo pushed
    = (mkStack (take i cmds ++ [cmd]) i, cmd_undo cmd (cmd_redo cmd w))
  ∧ QUndoStack_undo cmd_undo (mkStack cmds 0, w) = (mkStack cmds 0, w)
  ∧ QUndoStack_redo cmd_redo (mkStack cmds (length cmds), w)
    = (mkStack cmds (length cmds), w).
Proof.
  intros Hle pushed. subst pushed.
  assert (length (take i cmds) = i) as Hlen by (rewrite length_take; lia).
  split; [done|]. split; [|split; [|split]].
  - by apply QUndoStack_redo_after_push.
  - unfold QUndoStack_undo, QUndoStack_push; simpl.
    rewrite Nat.sub_0_r.
    rewrite lookup_app_r, Hlen, Nat.sub_diag by lia. done.
  - done.
  - unfold QUndoStack_redo; simpl. by rewrite bool_decide_eq_true_2.
Qed.

Lemma undo_stack_is_linear_witness :
  let log := [AddColumnCommand "people" "email"; AddColumnCommand "people" "phone"] in
  let pushed := QUndoStack_push stack_redo (DeleteColumnCommand "people" "age")
                  (mkStack log 1, Some (mkStore (Some people_db) [])) in
  command_list pushed.1
  = [AddColumnCommand "people" "email"; DeleteColumnCommand "people" "age"]
  ∧ QUndoStack_redo stack_redo pushed = pushed.
Proof.
  intros log pushed.
  destruct (undo_stack_is_linear stack_redo stack_undo log 1
              (Some (mkStore (Some people_db) [])) (DeleteColumnCommand "people" "age"))
    as (Hpush & Hredo & _).
  - simpl. lia.
  - split; [|exact Hredo]. subst pushed. rewrite Hpush. reflexivity.
Defined.

(** ** Query history *)

Lemma digit_cases n :
  digit n ∈ ["0"; "1"; "2"; "3"; "4"; "5"; "6"; "7"; "8"; "9"]%char.
Proof.
  unfold digit. pose proof (Nat.mod_upper_bound n 10) as Hlt.
  destruct (n mod 10) as [|[|[|[|[|[|[|[|[|[|m]]]]]]]]]];
    [by_evaluation .. | lia].
Qed.

Lemma digit_not_colon n : Ascii.eqb (digit n) ":" = false.
Proof.
  pose proof (digit_cases n) as H.
  repeat (apply elem_of_cons in H as [-> | H]; [reflexivity|]).
  by apply elem_of_nil in H.
Qed.

Lemma digit_not_space n : Ascii.eqb (digit n) " " = false.
Proof.
  pose proof (digit_cases n) as H.
  repeat (apply elem_of_cons in H as [-> | H]; [reflexivity|]).
  by apply elem_of_nil in H.
Qed.

Lemma has_colon_space_digit n rest :
  has_colon_space (String (digit n) rest) = has_colon_space rest.
Proof. cbn [has_colon_space]. by rewrite digit_not_colon. Qed.

Lemma has_colon_space_colon_digit n rest :
  has_colon_space (String ":" (String (digit n) rest))
  = has_colon_space (String (digit n) rest).
Proof.
  change (has_colon_space (String ":" (String (digit n) rest)))
    with ((true && Ascii.eqb (digit n) " ") || has_colon_space (String (digit n) rest)).
  by rewrite digit_not_space.
Qed.

Lemma has_colon_space_dash rest :
  has_colon_space (String "-" rest) = has_colon_space rest.
Proof. reflexivity. Qed.

Lemma has_colon_space_blank rest :
  has_colon_space (String " " rest) = has_colon_space rest.
Proof. reflexivity. Qed.

(** No colon of a time stamp is followed by a space. *)
Lemma strftime_no_colon_space now : has_colon_space (strftime now) = false.
Proof.
  unfold strftime, four_digits, two_digits.
  rewrite ?append_cons, ?append_nil_l.
  repeat first [ rewrite has_colon_space_digit
               | rewrite has_colon_space_dash
               | rewrite has_colon_space_blank
               | rewrite has_colon_space_colon_digit ].
  reflexivity.
Qed.

(** The first ": " of a text is the one behind a prefix that has none. *)
Lemma split_once_colon_space a rest :
  has_colon_space a = false →
  split_once ": " (a +:+ ": " +:+ rest) = Some (a, rest).
Proof.
  induction a as [|c a IH]; [done|].
  intros [Hc Ha]%orb_false_elim.
  rewrite append_cons. cbn [split_once strip_prefix].
  rewrite (IH Ha).
  destruct (Ascii.eqb_spec ":" c) as [<-|Hne]; [|done].
  destruct a as [|c2 a].
  - rewrite append_nil_l. cbn [strip_prefix String.append]. done.
  - rewrite append_cons. cbn [strip_prefix].
    rewrite (Ascii.eqb_sym " " c2).
    simpl in Hc. by rewrite Hc.
Qed.

Lemma split_history_item now rest :
  split_once ": " (strftime now +:+ ": " +:+ rest) = Some (strftime now, rest).
Proof. apply split_once_colon_space, strftime_no_colon_space. Qed.



Lemma rstrip_all p s : has_char (λ c, negb (p c)) s = false → rstrip p s = EmptyString.
Proof.
  induction s as [|c s IH]; [done|]. simpl.
  intros [Hc Hs]%orb_false_elim. rewrite IH by done.
  apply negb_false_iff in Hc. by rewrite Hc.
Qed.

(** Trailing characters of the set vanish under [rstrip]. *)
Lemma rstrip_append p s tail :
  has_char (λ c, negb (p c)) tail = false →
  rstrip p (s +:+ tail) = rstrip p s.
Proof.
  intros Htail. induction s as [|c s IH].
  - rewrite append_nil_l. by apply rstrip_all.
  - rewrite append_cons. simpl. by rewrite IH.
Qed.

Lemma rstrip_length p s : (String.length (rstrip p s) ≤ String.length s)%nat.
Proof.
  induction s as [|c s IH]; [done|]. simpl.
  destruct (rstrip p s); [destruct (p c)|]; simpl in *; lia.
Qed.

Lemma rstrip_ends p s : ends_with p (rstrip p s) = false.
Proof.
  induction s as [|c s IH]; [done|]. simpl.
  destruct (rstrip p s) as [|c' s'] eqn:E.
  - destruct (p c) eqn:Hc; simpl; [done|]. done.
  - simpl in *. done.
Qed.

Lemma rstrip_fixed p s : ends_with p s = false → rstrip p s = s.
Proof.
  induction s as [|c s IH]; [done|]. simpl.
  destruct s as [|c' s'].
  - simpl. by intros ->.
  - intros H. rewrite IH by done. done.
Qed.

Lemma slice_to_length n s :
  String.length (slice_to n s) = Nat.min n (String.length s).
Proof.
  revert s. induction n as [|n IH]; intros [|c s]; simpl; try done.
  by rewrite IH.
Qed.

Lemma slice_to_all n s : (String.length s ≤ n)%nat → slice_to n s = s.
Proof.
  revert s. induction n as [|n IH]; intros [|c s]; simpl; try done; [lia|].
  intros H. rewrite IH; [done|lia].
Qed.

(** What comes back from the history is the first 50 characters of the
    query without their trailing dots. *)
Lemma recalled_history_item now q :
  recalled_text (history_item now q) = Some (rstrip is_dot (slice_to 50 q)).
Proof.
  unfold recalled_text, history_item.
  rewrite split_history_item. f_equal.
  rewrite append_assoc. by apply rstrip_append.
Qed.

(** C10: the history item keeps the time stamp, the first 50 characters
    of the query and three dots; recalling it strips every trailing dot;
    so the recalled text is the executed query exactly when the query has
    at most 50 characters and does not end in a dot. *)
Theorem history_recall_exact (now : datetime) (q : string) (v : Viewer) :
  history_item now q = strftime now +:+ ": " +:+ slice_to 50 q +:+ "..."
  ∧ load_query_from_history (history_item now q) v
    = Some (query_input_setText (rstrip is_dot (slice_to 50 q)) v)
  ∧ (recalled_text (history_item now q) = Some q
     ↔ (String.length q ≤ 50)%nat ∧ ends_with is_dot q = false).
Proof.
  split; [done|]. split.
  { unfold load_query_from_history. by rewrite recalled_history_item. }
  rewrite recalled_history_item.
  pose proof (rstrip_length is_dot (slice_to 50 q)) as Hle.
  pose proof (rstrip_ends is_dot (slice_to 50 q)) as Hends.
  rewrite slice_to_length in Hle.
  split.
  - intros Heq. apply (inj Some) in Heq. rewrite Heq in Hle, Hends.
    split; [lia | done].
  - intros [Hlen Hend]. rewrite slice_to_all by done. by rewrite rstrip_fixed.
Qed.

(** A short query, a long query and a query ending in a dot, recalled. *)
Lemma history_recall_examples :
  let now := mkDatetime 2026 11 3 8 42 7 in
  history_item now "select * from people" = "2026-11-03 08:42:07: select * from people..."
  ∧ recalled_text (history_item now "select * from people") = Some "select * from people"
  ∧ recalled_text (history_item now "select name from people where name like 'A.'; -- ok.")
    = Some "select name from people where name like 'A.'; -- o"
  ∧ recalled_text (history_item now "select 1.") = Some "select 1".
Proof.
  intros now. split; [vm_compute; reflexivity|]. split; [vm_compute; reflexivity|].
  split; vm_compute; reflexivity.
Qed.

(** C4 (as amended): a statement the engine accepts adds one item to the
    history, made of the time stamp, the first 50 characters of the
    statement and three dots; a statement the engine rejects adds
    nothing (the user gets an error box instead).  Items already in the
    history stay as they are. *)
Theorem history_records_accepted_statements
    (sqlite : string → Database → option (Database * (list string * list (list Value))))
    (now : datetime) (v : Viewer) (d : Database) :
  db (store v) = Some d →
  strip (query_input v) ≠ EmptyString →
  let q := strip (query_input v) in
  let v' := execute_query sqlite now v in
  match sqlite q d with
  | Some _ => query_history v' = query_history v ++ [history_item now q]
              ∧ dialogs v' = dialogs v
  | None => query_history v' = query_history v
            ∧ dialogs v' = dialogs v ++ [CriticalBox "Query error: "]
            ∧ status_bar v' = "Query execution failed"
  end.
Proof.
  intros Hdb Hq q v'. subst v'. unfold execute_query. rewrite Hdb. fold q.
  rewrite bool_decide_eq_false_2 by done.
  destruct (sqlite q d) as [[d' [hd rs]]|]; [|done].
  destruct (startswith "SELECT" (upper (strip q))); [done|].
  unfold refresh_combo, display_table.
  case_bool_decide; simpl; done.
Qed.

Lemma history_records_accepted_statements_witness :
  query_history (execute_query accepting (mkDatetime 2026 11 3 8 42 7)
                   (typed_window " select * from people "))
  = [history_item (mkDatetime 2026 11 3 8 42 7) "select * from people"].
Proof.
  refine (proj1 (history_records_accepted_statements accepting
                   (mkDatetime 2026 11 3 8 42 7)
                   (typed_window " select * from people ") people_db _ _)).
  - reflexivity.
  - discriminate.
Defined.

(** C4 as stated fails: a rejected statement leaves the history empty. *)
Lemma rejected_statement_leaves_no_history :
  let v := execute_query rejecting (mkDatetime 2026 11 3 8 42 7)
             (typed_window "drop table nothing") in
  query_history (typed_window "drop table nothing") = []
  ∧ query_history v = []
  ∧ dialogs v = [CriticalBox "Query error: "].
Proof. intros v. split; [reflexivity|]. split; vm_compute; reflexivity. Qed.


(** ** CSV export *)

Lemma has_char_append p a b :
  has_char p (a +:+ b) = has_char p a || has_char p b.
Proof.
  induction a as [|c a IH]; [done|].
  rewrite append_cons. simpl. by rewrite IH, orb_assoc.
Qed.

(** Doubling the quotes adds no line break and takes none away. *)
Lemma double_quotes_breaks s :
  has_char is_line_break (double_quotes s) = has_char is_line_break s.
Proof.
  induction s as [|c s IH]; [done|]. simpl.
  destruct (Ascii.eqb_spec c quotechar) as [->|_]; simpl; by rewrite IH.
Qed.

Lemma csv_field_breaks s :
  has_char is_line_break (csv_field s) = has_char is_line_break s.
Proof.
  unfold csv_field. destruct (has_char needs_quotes s); [|done].
  unfold quoted. cbn [has_char]. rewrite has_char_append, double_quotes_breaks.
  simpl. by rewrite orb_false_r.
Qed.

Lemma join_breaks (parts : list string) :
  has_char is_line_break (join "," parts) = false
  ↔ Forall (λ s, has_char is_line_break s = false) parts.
Proof.
  induction parts as [|s parts IH].
  - split; [constructor | done].
  - destruct parts as [|s' parts].
    + simpl. split; [intros H; by repeat constructor | by intros H%Forall_inv].
    + change (join "," (s :: s' :: parts)) with (s +:+ "," +:+ join "," (s' :: parts)).
      rewrite !has_char_append, Forall_cons, <- IH.
      change (has_char is_line_break ",") with false. rewrite orb_false_l.
      by rewrite orb_false_iff.
Qed.

(** A record holds a line break exactly when one of its fields does. *)
Lemma record_line_breaks (fields : list string) :
  has_char is_line_break (record_line fields) = false
  ↔ Forall (λ s, has_char is_line_break s = false) fields.
Proof.
  assert (has_char is_line_break (join "," (csv_field <$> fields)) = false
          ↔ Forall (λ s, has_char is_line_break s = false) fields) as Hj.
  { rewrite join_breaks, Forall_fmap. apply Forall_proper; [|done].
    intros s. simpl. by rewrite csv_field_breaks. }
  unfold record_line. by destruct fields as [|[|c s] [|f fields]].
Qed.

Lemma writerow_record_line fields : writerow fields = record_line fields +:+ CRLF.
Proof. unfold writerow, record_line. by destruct fields as [|[|c s] [|f fields]]. Qed.

(** A text without line breaks, its terminator, and what follows. *)
Lemma lines_terminated l rest :
  has_char is_line_break l = false →
  lines (l +:+ CRLF +:+ rest) = l :: lines rest.
Proof.
  induction l as [|c l IH]; [done|].
  intros [Hc Hl]%orb_false_elim.
  apply orb_false_elim in Hc as [Hcr Hlf].
  rewrite append_cons. cbn [lines]. by rewrite (IH Hl), Hcr, Hlf.
Qed.

Lemma lines_of_records (records : list (list string)) :
  unbroken records →
  lines (foldr (λ fields rest, writerow fields +:+ rest) EmptyString records)
  = record_line <$> records.
Proof.
  induction 1 as [|fields records Hf _ IH]; [done|]. simpl.
  rewrite writerow_record_line, append_assoc.
  rewrite lines_terminated by (by apply record_line_breaks).
  by rewrite IH.
Qed.

Lemma lines_nonempty c s : lines (String c s) ≠ [].
Proof.
  cbn [lines]. destruct (Ascii.eqb c LF); [done|].
  destruct (Ascii.eqb c CR).
  - destruct s as [|c2 s]; [done|]. by destruct (Ascii.eqb c2 LF).
  - by destruct (lines s).
Qed.

Lemma lines_cons_length c s :
  Ascii.eqb c LF = false → Ascii.eqb c CR = false → s ≠ EmptyString →
  length (lines (String c s)) = length (lines s).
Proof.
  intros Hlf Hcr Hs. cbn [lines]. rewrite Hlf, Hcr.
  destruct s as [|c2 s]; [done|].
  pose proof (lines_nonempty c2 s). by destruct (lines (String c2 s)).
Qed.

(** The lines of a text that goes on behind a terminator. *)
Lemma lines_split_bounded n a rest :
  (String.length a ≤ n)%nat →
  lines (a +:+ CRLF +:+ rest) = lines (a +:+ CRLF) ++ lines rest.
Proof.
  revert a. induction n as [|n IH]; intros a Hlen.
  - destruct a; [done | simpl in Hlen; lia].
  - destruct a as [|c a]; [done|]. simpl in Hlen.
    rewrite !append_cons. cbn [lines].
    destruct (Ascii.eqb c LF); [by rewrite IH by lia|].
    destruct (Ascii.eqb c CR).
    + destruct a as [|c2 a]; [done|]. simpl in Hlen. rewrite !append_cons.
      destruct (Ascii.eqb c2 LF); [by rewrite IH by lia|].
      rewrite <- !append_cons. rewrite (IH (String c2 a)) by (simpl; lia). done.
    + rewrite IH by lia.
      assert (lines (a +:+ CRLF) ≠ []) as Hne.
      { destruct a; [done|]. rewrite append_cons. apply lines_nonempty. }
      by destruct (lines (a +:+ CRLF)).
Qed.

Lemma lines_split a rest :
  lines (a +:+ CRLF +:+ rest) = lines (a +:+ CRLF) ++ lines rest.
Proof. by apply (lines_split_bounded (String.length a)). Qed.

Lemma lines_terminator_nonempty a : lines (a +:+ CRLF) ≠ [].
Proof. destruct a; [done|]. rewrite append_cons. apply lines_nonempty. Qed.

(** A line break inside a record gives a second line. *)
Lemma lines_broken a :
  has_char is_line_break a = true → (2 ≤ length (lines (a +:+ CRLF)))%nat.
Proof.
  induction a as [|c a IH]; [done|].
  pose proof (lines_terminator_nonempty a) as Hne.
  rewrite append_cons. cbn [has_char lines]. unfold is_line_break at 1.
  destruct (Ascii.eqb c LF) eqn:Hlf.
  - intros _. destruct (lines (a +:+ CRLF)); [done|]. simpl. lia.
  - destruct (Ascii.eqb c CR) eqn:Hcr.
    + intros _. destruct a as [|c2 a]; [simpl; lia|]. rewrite append_cons.
      destruct (Ascii.eqb c2 LF).
      * pose proof (lines_terminator_nonempty a).
        destruct (lines (a +:+ CRLF)); [done|]. simpl. lia.
      * rewrite <- append_cons. destruct (lines (String c2 a +:+ CRLF)); [done|].
        simpl. lia.
    + simpl. intros Ha. specialize (IH Ha).
      destruct (lines (a +:+ CRLF)); [done|]. simpl in *. lia.
Qed.

(** There are at least as many lines as records, and exactly as many
    only if no field holds a line break. *)
Lemma lines_count (records : list (list string)) :
  let text := foldr (λ fields rest, writerow fields +:+ rest) EmptyString records in
  (length records ≤ length (lines text))%nat
  ∧ (length (lines text) = length records → unbroken records).
Proof.
  induction records as [|fields records [IHle IHeq]]; [by split; [|constructor]|].
  simpl in *. rewrite writerow_record_line, append_assoc, lines_split, length_app.
  pose proof (lines_terminator_nonempty (record_line fields)) as Hne.
  assert (1 ≤ length (lines (record_line fields +:+ CRLF)))%nat as Hone
    by (destruct (lines (record_line fields +:+ CRLF)); [done | simpl; lia]).
  split; [lia|]. intros Heq. constructor.
  - apply record_line_breaks.
    destruct (has_char is_line_break (record_line fields)) eqn:Hb; [|done].
    pose proof (lines_broken _ Hb). lia.
  - apply IHeq. lia.
Qed.

Lemma csv_text_records (str : QVariant → string) (mo : QSqlTableModel) :
  csv_text str mo
  = foldr (λ fields rest, record_line fields +:+ CRLF +:+ rest) EmptyString
      (csv_rows str mo).
Proof.
  unfold csv_text. induction (csv_rows str mo) as [|r rs IH]; [done|]. simpl.
  by rewrite writerow_record_line, append_assoc, IH.
Qed.

(** C9 (as amended): exporting a grid of N rows and M columns to a file
    that can be written leaves in it N+1 records, the M headers first
    and then one record per row with every cell through [str], each laid
    out by the writer and ended by CR LF; no box is shown.  The file has
    exactly N+1 lines, the records one by one, if and only if no header
    and no stringified cell contains a CR or LF.  When the file cannot
    be opened, nothing is written and the error is shown. *)
Theorem csv_export_has_a_line_per_record (str : QVariant → string)
    (mo : QSqlTableModel) (m : nat) (file_name : string) (v : Viewer) :
  model v = Some m → models (store v) !! m = Some mo →
  file_name ≠ EmptyString →
  let v' := export_to_csv str file_name Written v in
  files v' !! file_name = Some (csv_text str mo)
  ∧ dialogs v' = dialogs v
  ∧ status_bar v' = "Exported to " +:+ file_name
  ∧ csv_text str mo
    = foldr (λ fields rest, record_line fields +:+ CRLF +:+ rest) EmptyString
        (csv_rows str mo)
  ∧ length (csv_rows str mo) = S (rowCount mo)
  ∧ csv_rows str mo !! 0 = Some (headers mo)
  ∧ (∀ row, (row < rowCount mo)%nat →
       csv_rows str mo !! S row
       = Some ((λ col, str (model_data mo row col DisplayRole)) <$> seq 0 (columnCount mo)))
  ∧ (unbroken (csv_rows str mo)
     ↔ lines (csv_text str mo) = record_line <$> csv_rows str mo)
  ∧ (unbroken (csv_rows str mo)
     ↔ length (lines (csv_text str mo)) = S (rowCount mo))
  ∧ files (export_to_csv str file_name OpenRaised v) = files v
  ∧ dialogs (export_to_csv str file_name OpenRaised v)
    = dialogs v ++ [CriticalBox "Error exporting to CSV: "]
  ∧ status_bar (export_to_csv str file_name OpenRaised v) = "Export failed".
Proof.
  intros Hm Hmo Hname v'.
  assert (length (csv_rows str mo) = S (rowCount mo)) as Hlen
    by (unfold csv_rows; simpl; by rewrite length_fmap, length_seq).
  pose proof (lines_count (csv_rows str mo)) as [_ Hcount].
  fold (csv_text str mo) in Hcount.
  assert (∀ io, export_to_csv str file_name io v
                = match io with
                  | Written =>
                      showMessage ("Exported to " +:+ file_name)
                        (write_file file_name (csv_text str mo) v)
                  | OpenRaised =>
                      showMessage "Export failed"
                        (show_dialog (CriticalBox "Error exporting to CSV: ") v)
                  | WriteRaised partial =>
                      showMessage "Export failed"
                        (show_dialog (CriticalBox "Error exporting to CSV: ")
                           (write_file file_name partial v))
                  end) as Hexp.
  { intros io. unfold export_to_csv. rewrite Hm. simpl. rewrite Hmo.
    by rewrite bool_decide_eq_false_2. }
  assert (unbroken (csv_rows str mo)
          → lines (csv_text str mo) = record_line <$> csv_rows str mo) as Hlines
    by (intros Hu; by apply lines_of_records).
  subst v'. rewrite !Hexp.
  split; [simpl; by rewrite lookup_insert_eq|]. split; [done|]. split; [done|].
  split; [apply csv_text_records|].
  split; [done|]. split; [done|]. split.
  { intros row Hrow. unfold csv_rows. simpl.
    rewrite list_lookup_fmap, lookup_seq_lt by done. done. }
  split.
  { split; [done|]. intros Hl. apply Hcount. by rewrite Hl, length_fmap. }
  split; [|done]. split.
  - intros Hu. by rewrite Hlines, length_fmap.
  - intros Hl. apply Hcount. by rewrite Hlen.
Qed.

Lemma csv_export_has_a_line_per_record_witness :
  let mo := select_table people_db "people" in
  files (export_to_csv show_value "people.csv" Written (window people_db "people"))
    !! "people.csv"
  = Some (csv_text show_value mo)
  ∧ length (csv_rows show_value mo) = S (rowCount mo).
Proof.
  intros mo.
  destruct (csv_export_has_a_line_per_record show_value mo 0 "people.csv"
              (window people_db "people"))
    as (Hfile & _ & _ & _ & Hcount & _).
  - reflexivity.
  - reflexivity.
  - discriminate.
  - split; [exact Hfile | exact Hcount].
Defined.

(** C9 as stated fails: a cell whose text holds a line feed is written
    inside quotes with the line feed kept, so a grid of one row gives a
    file of three lines. *)
Lemma csv_export_splits_a_record :
  rowCount two_line_name = 1
  ∧ csv_text show_value two_line_name
    = "id,name" +:+ CRLF +:+
      "1," +:+ String quotechar ("Ann" +:+ String LF ("Lee" +:+ String quotechar CRLF))
  ∧ length (lines (csv_text show_value two_line_name)) = 3.
Proof. split; [reflexivity|]. split; vm_compute; reflexivity. Qed.

(** The sample table as it is exported: the empty age is an empty
    field. *)
Lemma csv_export_of_people :
  csv_text show_value (select_table people_db "people")
  = "id,name,age" +:+ CRLF +:+ "1,Ann,30" +:+ CRLF +:+ "2,Bob," +:+ CRLF.
Proof. vm_compute. reflexivity. Qed.

(** ** Cell edits *)

(** The old value [on_data_changed] asks for is never there. *)
Lemma UserRole_is_invalid mo row col : model_data mo row col UserRole = Invalid.
Proof. reflexivity. Qed.

(** Whatever the handler pushes is a command without an old value: its
    [undo] hands [None] to [setData]. *)
Lemma on_data_changed_pushes v row col v' :
  on_data_changed row col v = Some v' →
  v' = v
  ∨ ∃ m x,
      model v = Some m
      ∧ command_list (undo_stack v')
        = take (index (undo_stack v)) (command_list (undo_stack v))
          ++ [UpdateCommand m row col Invalid (Variant x)]
      ∧ index (undo_stack v') = S (index (undo_stack v))
      ∧ store v' = store v.
Proof.
  unfold on_data_changed. destruct (model v) as [m|] eqn:Hm; [|done]. simpl.
  destruct (models (store v) !! m) as [mo|] eqn:Hmo; [|done]. simpl.
  destruct (cell_at mo row col) as [old|] eqn:Hold; cycle 1.
  { rewrite bool_decide_eq_false_2 by (by intros ?). intros [= <-]. by left. }
  rewrite bool_decide_eq_true_2 by done.
  unfold push, QUndoStack_push. simpl. unfold UpdateCommand_redo, command_setData.
  rewrite Hmo. simpl. rewrite Hold.
  case_bool_decide; [|done]. simpl. intros [= <-]. right.
  by exists m, (to_python old).
Qed.

(** C2, the code at a failing input: the name in the first row is "Ann";
    it is edited to "Anna".  The model signals the cell and then the
    row it has read back, so the handler pushes two commands, one for
    the cell and one for the first cell of the row.  Neither holds the
    old value: each hands the invalid variant ([None]) to [setData] when
    undone, and "Ann" is nowhere in the window any more.  The Undo
    action reverses the command pushed last, which is the one for
    column 0; the reverse action of the command for the edited cell
    would leave NULL in the cell, not "Ann". *)
Lemma undo_of_cell_edit_loses_old_value :
  let v := window people_db "people" in
  shown_cell 0 1 v = Some (VText "Ann")
  ∧ ∃ edited, edit_cell 0 1 (VText "Anna") v = Some edited
      ∧ shown_cell 0 1 edited = Some (VText "Anna")
      ∧ column_of "people" "name" edited = Some [VText "Anna"; VText "Bob"]
      ∧ command_list (undo_stack edited)
        = [UpdateCommand 0 0 1 Invalid (Variant (VText "Anna"));
           UpdateCommand 0 0 0 Invalid (Variant (VInt 1))]
      ∧ index (undo_stack edited) = 2
      ∧ undo_value <$> command_list (undo_stack edited) = [Some Invalid; Some Invalid]
      ∧ (models (store edited) !! 0
           ≫= λ mo, cell_at (model_setData mo 0 1 Invalid) 0 1) = Some VNull.
Proof.
  intros v. split; [vm_compute; reflexivity|].
  eexists. split; [vm_compute; reflexivity|].
  split; [vm_compute; reflexivity|]. split; [vm_compute; reflexivity|].
  split; [vm_compute; reflexivity|]. split; [vm_compute; reflexivity|].
  split; vm_compute; reflexivity.
Qed.

(** The scenario of the specification: the cell was empty before the
    edit.  The commands are the same two, and the reverse action of the
    first would leave NULL, which is what the cell held. *)
Lemma undo_of_edit_of_empty_cell :
  let v := window people_db "people" in
  shown_cell 1 2 v = Some VNull
  ∧ ∃ edited, edit_cell 1 2 (VText "41") v = Some edited
      ∧ shown_cell 1 2 edited = Some (VText "41")
      ∧ command_list (undo_stack edited)
        = [UpdateCommand 0 1 2 Invalid (Variant (VText "41"));
           UpdateCommand 0 1 0 Invalid (Variant (VInt 2))]
      ∧ (models (store edited) !! 0
           ≫= λ mo, cell_at (model_setData mo 1 2 Invalid) 1 2) = Some VNull.
Proof.
  intros v. split; [vm_compute; reflexivity|].
  eexists. split; [vm_compute; reflexivity|].
  split; [vm_compute; reflexivity|]. split; vm_compute; reflexivity.
Qed.

(** ** The query runner *)

Lemma lstrip_empty p s : lstrip p s = EmptyString → has_char (λ c, negb (p c)) s = false.
Proof.
  induction s as [|c s IH]; [done|]. simpl.
  destruct (p c) eqn:Hc; [|done]. simpl. exact IH.
Qed.

Lemma rstrip_empty p s : rstrip p s = EmptyString → has_char (λ c, negb (p c)) s = false.
Proof.
  induction s as [|c s IH]; [done|]. simpl.
  destruct (rstrip p s) as [|c' s'] eqn:E; [|done].
  destruct (p c) eqn:Hc; [|done]. intros _. simpl. by apply IH.
Qed.

Lemma all_ends p s :
  has_char (λ c, negb (p c)) s = false → ends_with p s = false → s = EmptyString.
Proof.
  induction s as [|c s IH]; [done|]. simpl.
  intros [Hc Hs]%orb_false_elim. apply negb_false_iff in Hc.
  destruct s as [|c' s']; [by rewrite Hc|].
  intros He. by specialize (IH Hs He).
Qed.

(** [strip] leaves nothing exactly of the texts made of white space. *)
Lemma strip_empty_iff s : strip s = EmptyString ↔ blank s = true.
Proof.
  unfold strip, blank. rewrite negb_true_iff. split.
  - intros H. apply lstrip_empty in H.
    apply all_ends in H; [|apply rstrip_ends]. by apply rstrip_empty.
  - intros H. by rewrite rstrip_all.
Qed.

(** X9: with a connection open, [execute_query] leaves the window
    exactly as it was if and only if the text in the editor is blank
    (empty or white space only): the engine is not asked, nothing is
    shown.  Any other text is sent, and leaves a trace (a history item
    or an error box). *)
Theorem blank_query_is_ignored
    (sqlite : string → Database → option (Database * (list string * list (list Value))))
    (now : datetime) (v : Viewer) (d : Database) :
  db (store v) = Some d →
  (execute_query sqlite now v = v ↔ blank (query_input v) = true).
Proof.
  intros Hdb. rewrite <- strip_empty_iff. unfold execute_query. rewrite Hdb.
  case_bool_decide as Hq; [done|]. split; [|done]. intros Heq. exfalso.
  destruct (sqlite (strip (query_input v)) d) as [[d' [hd rs]]|].
  - apply (f_equal (length ∘ query_history)) in Heq. revert Heq.
    destruct (startswith "SELECT" (upper (strip (strip (query_input v)))));
      unfold refresh_combo, display_table; [|case_bool_decide]; simpl;
      rewrite length_app; simpl; lia.
  - apply (f_equal (length ∘ dialogs)) in Heq. simpl in Heq.
    rewrite length_app in Heq. simpl in Heq. lia.
Qed.

Lemma blank_query_is_ignored_witness :
  execute_query accepting (mkDatetime 2026 11 3 8 42 7)
    (typed_window (String " " (String LF (String " " EmptyString))))
  = typed_window (String " " (String LF (String " " EmptyString))).
Proof.
  refine (proj2 (blank_query_is_ignored accepting (mkDatetime 2026 11 3 8 42 7)
                   (typed_window (String " " (String LF (String " " EmptyString))))
                   people_db _) _).
  - reflexivity.
  - reflexivity.
Defined.

Lemma upper_char_space c : is_space (upper_char c) = is_space c.
Proof.
  unfold upper_char.
  destruct (97 <=? nat_of_ascii c)%nat eqn:Hlo; [|done].
  destruct (nat_of_ascii c <=? 122)%nat eqn:Hhi; [|done]. simpl.
  apply Nat.leb_le in Hlo, Hhi.
  unfold is_space. rewrite nat_ascii_embedding by lia.
  repeat match goal with
         | |- context [(?a <=? ?b)%nat] =>
             destruct (Nat.leb_spec a b); try lia
         | |- context [(?a =? ?b)%nat] =>
             destruct (Nat.eqb_spec a b); try lia
         end; done.
Qed.

Lemma upper_lstrip s : upper (lstrip is_space s) = lstrip is_space (upper s).
Proof.
  induction s as [|c s IH]; [done|]. simpl. rewrite upper_char_space.
  by destruct (is_space c).
Qed.

Lemma upper_rstrip s : upper (rstrip is_space s) = rstrip is_space (upper s).
Proof.
  induction s as [|c s IH]; [done|]. simpl. rewrite <- IH, upper_char_space.
  destruct (rstrip is_space s); [by destruct (is_space c)|done].
Qed.

Lemma upper_strip s : upper (strip s) = strip (upper s).
Proof. unfold strip. by rewrite upper_lstrip, upper_rstrip. Qed.

Lemma lstrip_fixed p s :
  match s with EmptyString => true | String c _ => negb (p c) end = true →
  lstrip p s = s.
Proof. destruct s as [|c s]; [done|]. simpl. by intros ->%negb_true_iff. Qed.

Lemma lstrip_head p s :
  match lstrip p s with EmptyString => true | String c _ => negb (p c) end = true.
Proof.
  induction s as [|c s IH]; [done|]. simpl.
  destruct (p c) eqn:Hc; [done|]. simpl. by rewrite Hc.
Qed.

Lemma lstrip_ends p s : ends_with p s = false → ends_with p (lstrip p s) = false.
Proof.
  induction s as [|c s IH]; [done|]. intros H.
  cbn [lstrip]. destruct (p c) eqn:Hc; [|exact H].
  destruct s as [|c' s']; [done|]. apply IH. exact H.
Qed.

(** The second [strip] of the source (line 229) changes nothing. *)
Lemma strip_strip s : strip (strip s) = strip s.
Proof.
  unfold strip.
  rewrite (rstrip_fixed is_space (lstrip is_space (rstrip is_space s)))
    by apply lstrip_ends, rstrip_ends.
  apply lstrip_fixed, lstrip_head.
Qed.

(** X10: whether a statement is shown as a query result does not depend
    on the case of its letters nor on white space around it: two texts
    that agree once upper-cased are classified alike, and stripping
    first changes nothing. *)
Theorem select_test_ignores_case (q1 q2 : string) :
  upper q1 = upper q2 →
  is_select q1 = is_select q2 ∧ is_select (strip q1) = is_select q1.
Proof.
  intros Heq. unfold is_select. rewrite strip_strip, !upper_strip.
  by rewrite Heq.
Qed.

Lemma select_test_ignores_case_witness :
  is_select "  select * from people" = is_select "  SeLeCt * FROM People"
  ∧ is_select (strip "  select * from people") = is_select "  select * from people".
Proof. apply select_test_ignores_case. reflexivity. Defined.

(** X11: a statement the engine accepts and that starts with SELECT (in
    any case): the database is the one the engine hands back, the grid
    becomes the result set (a model bound to no table), the table list
    and the undo stack stay as they are, and the history has one more
    item. *)
Theorem accepted_select_shows_result
    (sqlite : string → Database → option (Database * (list string * list (list Value))))
    (now : datetime) (v : Viewer) (d d' : Database)
    (result_header : list string) (result_rows : list (list Value)) :
  db (store v) = Some d →
  strip (query_input v) ≠ EmptyString →
  sqlite (strip (query_input v)) d = Some (d', (result_header, result_rows)) →
  is_select (query_input v) = true →
  let v' := execute_query sqlite now v in
  store v' = mkStore (Some d')
               (models (store v) ++ [mkModel None result_header result_rows])
  ∧ model v' = Some (length (models (store v)))
  ∧ combo_items v' = combo_items v ∧ combo_index v' = combo_index v
  ∧ undo_stack v' = undo_stack v
  ∧ status_bar v' = "Query executed successfully"
  ∧ dialogs v' = dialogs v.
Proof.
  intros Hdb Hq Hrun Hsel v'. subst v'. unfold execute_query.
  rewrite Hdb, bool_decide_eq_false_2, Hrun by done.
  unfold is_select in Hsel. rewrite <- (strip_strip (query_input v)) in Hsel.
  by rewrite Hsel.
Qed.

Lemma accepted_select_shows_result_witness :
  let v' := execute_query (λ _ d, Some (d, (["n"], [[VInt 2]])))
              (mkDatetime 2026 11 3 8 42 7)
              (typed_window "select count(*) as n from people") in
  store v' = mkStore (Some people_db)
               (models (store (typed_window "select count(*) as n from people"))
                ++ [mkModel None ["n"] [[VInt 2]]])
  ∧ model v' = Some 1
  ∧ combo_items v' = ["people"] ∧ combo_index v' = 0
  ∧ undo_stack v' = mkStack [] 0
  ∧ status_bar v' = "Query executed successfully"
  ∧ dialogs v' = [].
Proof.
  apply (accepted_select_shows_result (λ _ d, Some (d, (["n"], [[VInt 2]])))
           (mkDatetime 2026 11 3 8 42 7)
           (typed_window "select count(*) as n from people") people_db people_db
           ["n"] [[VInt 2]]).
  - reflexivity.
  - discriminate.
  - reflexivity.
  - reflexivity.
Defined.


(** ** The Add Row dialog *)

Lemma get_values_snoc inputs k x :
  get_values (inputs ++ [(k, x)]) = dict_set k x (get_values inputs).
Proof. unfold get_values. by rewrite foldl_app. Qed.

Lemma last_value_snoc k inputs k' x :
  last_value k (inputs ++ [(k', x)])
  = if String.eqb k' k then Some x else last_value k inputs.
Proof.
  induction inputs as [|[k0 x0] inputs IH]; simpl.
  - by destruct (String.eqb k' k).
  - rewrite IH. destruct (String.eqb k' k); [done|].
    by destruct (last_value k inputs).
Qed.

Lemma dict_set_keys k x d k0 :
  k0 ∈ (dict_set k x d).*1 ↔ k0 = k ∨ k0 ∈ d.*1.
Proof.
  induction d as [|[k' x'] d IH]; simpl.
  - rewrite list_elem_of_singleton, elem_of_nil. tauto.
  - destruct (String.eqb_spec k' k) as [->|Hne]; simpl.
    + rewrite !elem_of_cons. tauto.
    + rewrite !elem_of_cons, IH. tauto.
Qed.

Lemma dict_set_NoDup k x d : NoDup d.*1 → NoDup (dict_set k x d).*1.
Proof.
  induction d as [|[k' x'] d IH]; simpl.
  - intros _. apply NoDup_singleton.
  - intros [Hnin Hnd]%NoDup_cons.
    destruct (String.eqb_spec k' k) as [->|Hne]; simpl.
    + by apply NoDup_cons.
    + apply NoDup_cons. split; [|by apply IH].
      rewrite dict_set_keys. intros [?|?]; [congruence|done].
Qed.

Lemma dict_set_entries k x d k0 x0 :
  NoDup d.*1 →
  (k0, x0) ∈ dict_set k x d
  ↔ (k0 = k ∧ x0 = x) ∨ (k0 ≠ k ∧ (k0, x0) ∈ d).
Proof.
  induction d as [|[k' x'] d IH]; simpl.
  - intros _. rewrite list_elem_of_singleton, elem_of_nil.
    split; [intros [= -> ->]; by left | intros [[-> ->]|[_ []]]; done].
  - intros [Hnin Hnd]%NoDup_cons.
    destruct (String.eqb_spec k' k) as [->|Hne].
    + rewrite !elem_of_cons. split.
      * intros [[= -> ->]|Hin]; [by left|]. right. split; [|by right].
        intros ->. apply Hnin. apply list_elem_of_fmap. by exists (k, x0).
      * intros [[-> ->]|[Hk [[= ? ?]|Hin]]]; [by left|congruence|by right].
    + rewrite !elem_of_cons, IH by done. split.
      * intros [[= -> ->]|[[-> ->]|[Hk Hin]]];
          [right; split; [done|by left] | by left | right; split; [done|by right]].
      * intros [[-> ->]|[Hk [[= -> ->]|Hin]]];
          [right; by left | by left | right; right; by split].
Qed.

Lemma dict_set_length k x d :
  (length d ≤ length (dict_set k x d) ≤ S (length d))%nat.
Proof.
  induction d as [|[k' x'] d IH]; simpl; [lia|].
  destruct (String.eqb k' k); simpl; lia.
Qed.

Lemma get_values_NoDup inputs : NoDup (get_values inputs).*1.
Proof.
  induction inputs as [|[k x] inputs IH] using rev_ind; [constructor|].
  rewrite get_values_snoc. by apply dict_set_NoDup.
Qed.

(** X21: [get_values] yields one entry per distinct header: no header
    occurs twice, the value under a header is the text of the last field
    with that header, and there are never more entries than fields.
    With two columns of the same header, the dictionary is therefore
    shorter than the row. *)
Theorem get_values_one_entry_per_header (inputs : list (string * string)) :
  NoDup (get_values inputs).*1
  ∧ (∀ k x, (k, x) ∈ get_values inputs ↔ last_value k inputs = Some x)
  ∧ (length (get_values inputs) ≤ length inputs)%nat.
Proof.
  split; [apply get_values_NoDup|].
  induction inputs as [|[k x] inputs [IHe IHl]] using rev_ind.
  - split; [|done]. intros k x. simpl. by rewrite elem_of_nil.
  - rewrite get_values_snoc. split.
    + intros k0 x0. rewrite dict_set_entries by apply get_values_NoDup.
      rewrite last_value_snoc, IHe.
      destruct (String.eqb_spec k k0) as [->|Hne]; split.
      * intros [[_ ->]|[? _]]; done.
      * intros [= ->]. by left.
      * intros [[-> _]|[_ ?]]; done.
      * intros H. right. split; [congruence|done].
    + pose proof (dict_set_length k x (get_values inputs)).
      rewrite length_app. simpl. lia.
Qed.

Lemma dict_set_fresh k x d : k ∉ d.*1 → dict_set k x d = d ++ [(k, x)].
Proof.
  induction d as [|[k' x'] d IH]; simpl; [done|].
  intros [Hne Hnin]%not_elem_of_cons.
  destruct (String.eqb_spec k' k) as [->|_]; [done|]. by rewrite IH.
Qed.

(** X22: when the headers are distinct, [get_values] is the list of
    fields itself, header by header in column order: the position of an
    entry is the column of its field, which is what [add_row] relies on
    when it writes entry number [col] into column [col]. *)
Theorem get_values_of_distinct_headers (inputs : list (string * string)) :
  NoDup inputs.*1 → get_values inputs = inputs.
Proof.
  induction inputs as [|[k x] inputs IH] using rev_ind; [done|].
  rewrite fmap_app. simpl. intros [Hnd [Hdisj _]]%NoDup_app.
  rewrite get_values_snoc, IH by done.
  apply dict_set_fresh. intros Hin. apply (Hdisj k Hin). by left.
Qed.

Lemma get_values_of_distinct_headers_witness :
  get_values [("id", "7"); ("name", "Ann"); ("age", "30")]
  = [("id", "7"); ("name", "Ann"); ("age", "30")].
Proof. apply get_values_of_distinct_headers. by_evaluation. Defined.

(** Two fields under one header: one entry, holding the later text. *)
Lemma get_values_of_repeated_header :
  get_values [("n", "1"); ("x", "a"); ("n", "2")] = [("n", "2"); ("x", "a")].
Proof. reflexivity. Qed.

(** ** More on the undo stack *)

Lemma QUndoStack_undo_step {Cmd World : Type} (cmd_undo : Cmd → World → World)
    (cmds : list Cmd) (i : nat) (w : World) :
  (S i ≤ length cmds)%nat →
  (QUndoStack_undo cmd_undo (mkStack cmds (S i), w)).1 = mkStack cmds i.
Proof.
  intros Hle. unfold QUndoStack_undo. simpl. rewrite Nat.sub_0_r.
  destruct (lookup_lt_is_Some_2 cmds i) as [c Hc]; [lia|]. by rewrite Hc.
Qed.

Lemma QUndoStack_redo_step {Cmd World : Type} (cmd_redo : Cmd → World → World)
    (cmds : list Cmd) (i : nat) (w : World) :
  (S i ≤ length cmds)%nat →
  (QUndoStack_redo cmd_redo (mkStack cmds i, w)).1 = mkStack cmds (S i).
Proof.
  intros Hle. unfold QUndoStack_redo. simpl.
  rewrite bool_decide_eq_false_2 by lia.
  destruct (lookup_lt_is_Some_2 cmds i) as [c Hc]; [lia|]. by rewrite Hc.
Qed.

Lemma repeated_undo {Cmd World : Type} (cmd_undo : Cmd → World → World)
    (cmds : list Cmd) (i n : nat) (w : World) :
  (n ≤ i ≤ length cmds)%nat →
  (repeated n (QUndoStack_undo cmd_undo) (mkStack cmds i, w)).1 = mkStack cmds (i - n).
Proof.
  induction n as [|n IH]; intros Hle; simpl.
  - by rewrite Nat.sub_0_r.
  - specialize (IH ltac:(lia)).
    destruct (repeated n (QUndoStack_undo cmd_undo) (mkStack cmds i, w))
      as [stk w'].
    simpl in IH. subst stk.
    replace (i - n) with (S (i - S n)) by lia.
    apply QUndoStack_undo_step. lia.
Qed.

Lemma repeated_redo {Cmd World : Type} (cmd_redo : Cmd → World → World)
    (cmds : list Cmd) (i n : nat) (w : World) :
  (i + n ≤ length cmds)%nat →
  (repeated n (QUndoStack_redo cmd_redo) (mkStack cmds i, w)).1 = mkStack cmds (i + n).
Proof.
  induction n as [|n IH]; intros Hle; simpl.
  - by rewrite Nat.add_0_r.
  - specialize (IH ltac:(lia)).
    destruct (repeated n (QUndoStack_redo cmd_redo) (mkStack cmds i, w))
      as [stk w'].
    simpl in IH. subst stk.
    replace (i + S n) with (S (i + n)) by lia.
    apply QUndoStack_redo_step. lia.
Qed.

(** X23: undo and redo only move the index: [n] undos (with at least
    [n] commands done) leave the command list as it is and the index [n]
    lower, and [n] redos after them bring the stack back to what it was;
    no command is lost or reordered without a push. *)
Theorem undos_then_redos_restore_the_stack {Cmd World : Type}
    (cmd_redo cmd_undo : Cmd → World → World)
    (cmds : list Cmd) (i n : nat) (w : World) :
  (n ≤ i ≤ length cmds)%nat →
  let undone := repeated n (QUndoStack_undo cmd_undo) (mkStack cmds i, w) in
  undone.1 = mkStack cmds (i - n)
  ∧ (repeated n (QUndoStack_redo cmd_redo) undone).1 = mkStack cmds i.
Proof.
  intros Hle undone.
  assert (undone.1 = mkStack cmds (i - n)) as Hund by (by apply repeated_undo).
  split; [done|].
  destruct undone as [stk w']. simpl in Hund. subst stk.
  rewrite repeated_redo by lia. f_equal. lia.
Qed.

Lemma undos_then_redos_restore_the_stack_witness :
  let log := [AddColumnCommand "people" "email"; DeleteColumnCommand "people" "age";
              AddColumnCommand "people" "phone"] in
  let undone := repeated 2 (QUndoStack_undo stack_undo)
                  (mkStack log 3, Some (mkStore (Some people_db) [])) in
  undone.1 = mkStack log 1
  ∧ (repeated 2 (QUndoStack_redo stack_redo) undone).1 = mkStack log 3.
Proof.
  intros log undone.
  apply (undos_then_redos_restore_the_stack stack_redo stack_undo log 3 2
           (Some (mkStore (Some people_db) []))).
  simpl. lia.
Defined.

(** X24: the index never leaves the command list: if it is within the
    list before a push, an undo or a redo, it is within the list
    after. *)
Theorem undo_stack_index_stays_in_range {Cmd World : Type}
    (cmd_redo cmd_undo : Cmd → World → World)
    (s : UndoStack Cmd * World) (cmd : Cmd) :
  (index s.1 ≤ length (command_list s.1))%nat →
  (index (QUndoStack_push cmd_redo cmd s).1
     ≤ length (command_list (QUndoStack_push cmd_redo cmd s).1))%nat
  ∧ (index (QUndoStack_undo cmd_undo s).1
     ≤ length (command_list (QUndoStack_undo cmd_undo s).1))%nat
  ∧ (index (QUndoStack_redo cmd_redo s).1
     ≤ length (command_list (QUndoStack_redo cmd_redo s).1))%nat.
Proof. apply QUndoStack_index_bound. Qed.

Lemma undo_stack_index_stays_in_range_witness :
  let s := (mkStack [AddColumnCommand "people" "email"] 0, Some (mkStore (Some people_db) [])) in
  (index (QUndoStack_push stack_redo (DeleteColumnCommand "people" "age") s).1
     ≤ length (command_list
                 (QUndoStack_push stack_redo (DeleteColumnCommand "people" "age") s).1))%nat.
Proof.
  intros s.
  refine (proj1 (undo_stack_index_stays_in_range stack_redo stack_undo s
                   (DeleteColumnCommand "people" "age") _)).
  simpl. lia.
Defined.

(** ** More on the history *)

Lemma two_digits_length n : String.length (two_digits n) = 2.
Proof. reflexivity. Qed.

Lemma strftime_length now : String.length (strftime now) = 19.
Proof.
  unfold strftime, four_digits, two_digits.
  rewrite ?append_cons, ?append_nil_l. reflexivity.
Qed.

(** X28: a history item is the 19 characters of the time stamp, a colon
    and a space, at most 50 characters of the statement, and three dots:
    its length is 24 plus the length of the statement, capped at 74. *)
Theorem history_item_length (now : datetime) (q : string) :
  String.length (history_item now q) = 24 + Nat.min 50 (String.length q)
  ∧ (String.length (history_item now q) ≤ 74)%nat.
Proof.
  assert (String.length (history_item now q) = 24 + Nat.min 50 (String.length q)) as H.
  { unfold history_item.
    rewrite !length_append, strftime_length, slice_to_length. simpl. lia. }
  split; [done|]. rewrite H. lia.
Qed.

Lemma split_once_none_iff s :
  split_once ": " s = None ↔ has_colon_space s = false.
Proof.
  induction s as [|c s IH]; [done|].
  cbn [split_once strip_prefix has_colon_space].
  rewrite (Ascii.eqb_sym c ":").
  remember (split_once ": " s) as r eqn:Hr.
  remember (has_colon_space s) as h eqn:Hh.
  clear Hr Hh.
  assert (match r with
          | Some (before, after) => Some (String c before, after)
          | None => None
          end = None ↔ h = false) as Hrest.
  { rewrite <- IH. by destruct r as [[? ?]|]. }
  destruct (Ascii.eqb ":" c); [|exact Hrest].
  destruct s as [|c2 s2]; [exact Hrest|].
  cbn [strip_prefix]. rewrite (Ascii.eqb_sym c2 " ").
  destruct (Ascii.eqb " " c2); [|exact Hrest].
  split; discriminate.
Qed.

(** X29: recalling a history item.  The handler raises exactly for the
    item texts in which no colon is followed by a space; otherwise it
    only replaces the editor's text, and the text it puts there never
    ends in a dot. *)
Theorem recall_never_ends_in_a_dot (item_text : string) (v : Viewer) :
  (load_query_from_history item_text v = None ↔ has_colon_space item_text = false)
  ∧ from_option (λ v', ends_with is_dot (query_input v')) false
      (load_query_from_history item_text v) = false
  ∧ load_query_from_history item_text v
    = (λ text, query_input_setText text v) <$> recalled_text item_text.
Proof.
  unfold load_query_from_history, recalled_text.
  rewrite <- split_once_none_iff.
  destruct (split_once ": " item_text) as [[before after]|]; simpl; [|done].
  split; [done|]. split; [apply rstrip_ends | done].
Qed.

(** A new window has no connection and nothing to undo. *)
(** * Further properties of the program *)

(** ** What the column commands can and cannot touch *)

Lemma engine_frame st (d d' : Database) u :
  engine st d = Some d' → Forall (λ n, same_name u n = false) (written st) →
  lookup_table u d' = lookup_table u d.
Proof.
  unfold engine. destruct (negb (well_spelled st)); [done|].
  destruct st as [t cols|t|dst cols src|t|t n|t c ty]; simpl; intros He Hu.
  - rewrite Forall_singleton in Hu.
    repeat case_bool_decide; try done.
    destruct (lookup_table t d) eqn:Ht; [done|]. injection He as <-.
    rewrite lookup_table_app. destruct (lookup_table u d); [done|]. simpl.
    by rewrite (same_name_sym t u), Hu.
  - rewrite Forall_cons, Forall_singleton in Hu. destruct Hu as [Hu Hseq].
    destruct (lookup_table t d) eqn:Ht; [done|]. injection He as <-.
    assert (lookup_table u (d ++ [(t, id_table)]) = lookup_table u d) as Hnew.
    { rewrite lookup_table_app. destruct (lookup_table u d); [done|]. simpl.
      by rewrite (same_name_sym t u), Hu. }
    unfold with_sequence. destruct (lookup_table "sqlite_sequence" _); [done|].
    rewrite lookup_table_app, Hnew. destruct (lookup_table u d); [done|]. simpl.
    by rewrite (same_name_sym _ u), Hseq.
  - rewrite Forall_singleton in Hu. case_bool_decide; [done|].
    destruct (lookup_table dst d) as [x|]; [|done].
    destruct (lookup_table src d) as [y|]; [|done]. simpl in He.
    destruct (forallb _ cols); [|done]. injection He as <-.
    by apply lookup_alter_ne.
  - rewrite Forall_singleton in Hu.
    destruct (lookup_table t d); [|done]. injection He as <-.
    by apply lookup_drop_ne.
  - rewrite Forall_cons, Forall_singleton in Hu. destruct Hu as [Hu Hn].
    destruct (lookup_table t d) as [tb|]; [|done].
    destruct (lookup_table n d); [done|]. injection He as <-.
    by apply lookup_rename_ne.
  - rewrite Forall_singleton in Hu.
    destruct (lookup_table t d) as [tb|]; [|done]. simpl in He.
    destruct (_ || _); [done|]. injection He as <-.
    by apply lookup_alter_ne.
Qed.

Lemma query_exec_frame st (d : Database) u :
  Forall (λ n, same_name u n = false) (written st) →
  lookup_table u (query_exec st d).2 = lookup_table u d.
Proof.
  intros Hu. unfold query_exec.
  destruct (engine st d) as [d'|] eqn:He; [|done]. simpl. by eapply engine_frame.
Qed.

Lemma delete_column_statements_frame (d : Database) t c u :
  same_name u t = false → same_name u (temp_name t) = false →
  lookup_table u (delete_column_statements t c d).2 = lookup_table u d.
Proof.
  intros Hut Hutmp. rewrite delete_column_statements_steps. cbv zeta.
  rewrite !query_exec_frame; [done|simpl..]; by repeat constructor.
Qed.



Lemma rebuilt_outcome (d : Database) t c :
  plain_name t = true →
  lookup_table (temp_name t) d = None →
  (∀ tb, lookup_table t d = Some tb → plain_table tb) →
  (delete_column_statements t c d).2 = rebuilt d t c.
Proof.
  intros Hpt Htmp Hpl. unfold rebuilt.
  destruct (lookup_table t d) as [tb|] eqn:Ht.
  - destruct (Hpl tb eq_refl) as (Hcons & Hplain & Hnd & Hcols & Hlen & Hfull).
    case_bool_decide as Hs.
    + by apply (rebuild_last_column d t c tb).
    + by apply rebuild_result.
  - by apply rebuild_missing_table.
Qed.



(** ** The Delete Column action *)

Lemma select_moved_last t tb (d : Database) :
  select_table (moved_last t tb d) t = mkModel (Some t) (column_names tb) (rows tb).
Proof. unfold select_table. by rewrite lookup_moved_last. Qed.

(** The action on a column of the displayed table: the statements of the
    handler cut the column, the pushed command runs them once more and
    finds nothing left to cut. *)
Lemma delete_column_result v choice d t c k m mo tb :
  db (store v) = Some d →
  currentText v = t → plain_name t = true →
  model v = Some m → models (store v) !! m = Some mo →
  headers mo !! choice = Some c → c ≠ EmptyString →
  lookup_table t d = Some tb → plain_table tb →
  lookup_table (temp_name t) d = None →
  k ∈ column_names tb → k ≠ c →
  ∃ v', delete_column choice true true v = Some v'
    ∧ db (store v') = Some (moved_last t (without_column tb c) d)
    ∧ models (store v')
      = models (store v) ++ [mkModel (Some t) (surviving tb c).*1
                               (rows (without_column tb c))]
    ∧ model v' = Some (length (models (store v)))
    ∧ dialogs v' = dialogs v
    ∧ undo_stack v'
      = mkStack (take (index (undo_stack v)) (command_list (undo_stack v))
                 ++ [DeleteColumnCommand t c])
          (S (index (undo_stack v))).
Proof.
  intros Hdb Ht Hpt Hm Hmo Hc Hcne Htb Hpl Htmp Hk Hkc.
  pose proof (plain_not_empty t Hpt) as Hne.
  pose proof Hpl as (Hcons & Hplain & Hnd & Hcols & Hlen & Hfull).
  assert (surviving tb c ≠ []) as Hsurv by (by eapply surviving_not_nil).
  destruct (delete_column_confirmed v choice d t c m mo)
    as (v' & Hv' & Hdb' & Hms & Hmodel & _ & Hdlg & _ & Hstack & _); try done.
  rewrite (rebuild_result d t c tb) in Hdb', Hms by done.
  exists v'. split; [done|]. split.
  { rewrite Hdb'. f_equal. apply rebuild_again; try done.
    - by apply without_column_plain.
    - intros [_ ?]%surviving_names. done. }
  split; [by rewrite Hms, select_moved_last|]. done.
Qed.



(** The Undo action when the command left of the index is a column
    command. *)
Lemma undo_column_command v cmds i cmd :
  undo_stack v = mkStack (take i cmds ++ [cmd]) (S i) →
  (i ≤ length cmds)%nat →
  (∀ m row col old new, cmd ≠ UpdateCommand m row col old new) →
  ∃ s, command_undo cmd (store v) = Some s
    ∧ undo v = Some (with_undo_stack (mkStack (take i cmds ++ [cmd]) i, s) v).
Proof.
  intros Hstack Hle Hcmd. unfold undo, QUndoStack_undo. rewrite Hstack. simpl.
  rewrite Nat.sub_0_r, lookup_app_r by (rewrite length_take; lia).
  rewrite length_take, Nat.min_l, Nat.sub_diag by lia. simpl.
  destruct cmd as [m row col old new|t c|t c]; [by destruct (Hcmd m row col old new)|..];
    simpl; eexists; split; done.
Qed.





(** ** The Add Column action *)





(** ** Opening a database, creating and deleting tables *)

Lemma undo_of_empty_stack v : undo_stack v = mkStack [] 0 → undo v = Some v.
Proof.
  intros Hst. unfold undo, QUndoStack_undo. simpl. rewrite Hst. simpl.
  unfold with_undo_stack. simpl. rewrite <- Hst. by destruct v.
Qed.

Lemma refresh_combo_fields names v :
  let v' := refresh_combo names v in
  db (store v') = db (store v)
  ∧ combo_items v' = names ∧ combo_index v' = 0
  ∧ undo_stack v' = undo_stack v ∧ dialogs v' = dialogs v
  ∧ query_history v' = query_history v.
Proof.
  intros v'. subst v'. unfold refresh_combo, display_table. simpl.
  case_bool_decide; [done|]. destruct (db (store v)) eqn:Hdb; simpl; by rewrite ?Hdb.
Qed.

(** X14: opening a database file with success.  The window is connected
    to the new database; the table list shows its tables in the order of
    their creation; the undo stack is empty, so that the Undo action
    does nothing (no undo across databases); no box is shown.  When
    there is a table, the first one is displayed: two model objects are
    made for it, one by the signal of the list and one by the handler,
    and the second is the window's model. *)
Theorem open_database_starts_afresh (file_name : string) (d : Database) (v : Viewer) :
  file_name ≠ EmptyString →
  EmptyString ∉ tables d →
  let v' := open_database file_name (Some d) v in
  db (store v') = Some d
  ∧ combo_items v' = tables d
  ∧ undo_stack v' = mkStack [] 0
  ∧ undo v' = Some v'
  ∧ dialogs v' = dialogs v
  ∧ match tables d with
    | [] => models (store v') = models (store v) ∧ model v' = model v
            ∧ status_bar v' = "Connected to: " +:+ file_name
    | first :: _ =>
        source_table <$> models (store v')
        = (source_table <$> models (store v)) ++ [Some first; Some first]
        ∧ model v' = Some (S (length (models (store v))))
        ∧ table_view v' = model v'
        ∧ status_bar v' = "Displaying table: " +:+ first
    end.
Proof.
  intros Hfile Hnames v'.
  assert (db (store v') = Some d ∧ combo_items v' = tables d
          ∧ undo_stack v' = mkStack [] 0 ∧ dialogs v' = dialogs v
          ∧ match tables d with
            | [] => models (store v') = models (store v) ∧ model v' = model v
                    ∧ status_bar v' = "Connected to: " +:+ file_name
            | first :: _ =>
                source_table <$> models (store v')
                = (source_table <$> models (store v)) ++ [Some first; Some first]
                ∧ model v' = Some (S (length (models (store v))))
                ∧ table_view v' = model v'
                ∧ status_bar v' = "Displaying table: " +:+ first
            end) as (Hdb & Hcombo & Hstack & Hdlg & Hrest).
  { subst v'. unfold open_database. rewrite bool_decide_eq_false_2 by done.
    destruct (tables d) as [|first rest] eqn:Htables.
    - unfold refresh_combo, display_table. simpl. done.
    - assert (first ≠ EmptyString) as Hfirst.
      { intros ->. apply Hnames. by left. }
      unfold refresh_combo, display_table. simpl.
      rewrite !bool_decide_eq_false_2 by done. simpl.
      repeat split; try done.
      + rewrite !fmap_app, <- app_assoc. simpl. f_equal.
        unfold select_table. by destruct (lookup_table first d).
      + by rewrite length_app, Nat.add_1_r. }
  repeat split; try done. by apply undo_of_empty_stack.
Qed.

Lemma open_database_starts_afresh_witness :
  let v' := open_database "town.db" (Some town_db) (window people_db "people") in
  db (store v') = Some town_db
  ∧ combo_items v' = ["people"; "zoo"]
  ∧ status_bar v' = "Displaying table: people".
Proof.
  intros v'.
  destruct (open_database_starts_afresh "town.db" town_db (window people_db "people"))
    as (Hdb & Hcombo & _ & _ & _ & _ & _ & _ & Hstatus).
  - discriminate.
  - by_evaluation.
  - done.
Defined.







(** ** What a signalled change leaves on the stack *)

(** X25: [on_data_changed], run for a cell of the window's model that
    holds a value, pushes one [UpdateCommand] for that cell whose new
    value is the value read and whose old value is the invalid variant
    (the role asked for carries no data), whatever the cell held
    before: the [undo] of the command has no value to put back.  The
    [redo] run by the push finds the value in place and changes
    nothing. *)
Theorem data_changed_records_no_old_value (v : Viewer) (m : nat) (mo : QSqlTableModel)
    (row col : nat) (x : Value) :
  model v = Some m → models (store v) !! m = Some mo →
  cell_at mo row col = Some x → x ≠ VNull →
  ∃ v', on_data_changed row col v = Some v'
    ∧ command_list (undo_stack v')
      = take (index (undo_stack v)) (command_list (undo_stack v))
        ++ [UpdateCommand m row col Invalid (Variant x)]
    ∧ index (undo_stack v') = S (index (undo_stack v))
    ∧ (last (command_list (undo_stack v')) ≫= undo_value) = Some Invalid
    ∧ store v' = store v
    ∧ dialogs v' = dialogs v
    ∧ status_bar v'
      = "Cell updated at row " +:+ pretty row +:+ ", column " +:+ pretty col.
Proof.
  intros Hm Hmo Hx Hnull.
  assert (to_python x = x) as Hpy by (by destruct x).
  unfold on_data_changed. rewrite Hm. simpl. rewrite Hmo. simpl. rewrite Hx, Hpy.
  rewrite bool_decide_eq_true_2 by done.
  unfold push, QUndoStack_push. simpl. unfold UpdateCommand_redo, command_setData.
  rewrite Hmo. simpl. rewrite Hx. rewrite bool_decide_eq_true_2 by done. simpl.
  eexists. split; [done|]. simpl. rewrite last_snoc. done.
Qed.

Lemma data_changed_records_no_old_value_witness :
  ∃ v', on_data_changed 1 1 (window people_db "people") = Some v'
    ∧ command_list (undo_stack v')
      = [UpdateCommand 0 1 1 Invalid (Variant (VText "Bob"))]
    ∧ index (undo_stack v') = 1
    ∧ (last (command_list (undo_stack v')) ≫= undo_value) = Some Invalid
    ∧ store v' = store (window people_db "people")
    ∧ dialogs v' = []
    ∧ status_bar v' = "Cell updated at row 1, column 1".
Proof.
  apply (data_changed_records_no_old_value (window people_db "people") 0
           (select_table people_db "people") 1 1 (VText "Bob")).
  - reflexivity.
  - reflexivity.
  - reflexivity.
  - discriminate.
Defined.
